(** * dmd_medicine_processor: the extraction engine of [medicine_parser.py]

    A shallow embedding of [MedicineGroqParser] and the properties of its
    specification.

    Conventions of the model.
    - A Python [str] is a list of characters with code points below 256
      (Rocq's [ascii], read as Latin-1).  On that range [str.isspace],
      [str.lower], the class [\s], the class [\d] and case-insensitive
      matching of an ASCII pattern letter are the functions given below.
    - Python's [re] is a backtracking matcher: [Re.matches] lists the
      successes of a pattern at a position in the order in which the
      backtracking search reaches them, so the head of the list is the match
      that [re] reports.
    - The chat-completion service and [json.loads] are not code of this
      repository.  A call to the service is a node of an interaction tree
      ([io]); [json.loads] is a parameter of the engine.
    - Writes to standard output, [time.sleep] and the [tqdm] progress bar are
      left out. *)

From Stdlib Require Import Ascii String List Bool Arith Lia ZArith.
Import ListNotations.

Set Implicit Arguments.

(* ===================================================================== *)
(** ** Python strings *)
(* ===================================================================== *)

Module PyStr.

Definition str := list ascii.

(** A string literal. *)
Definition lit (s : string) : str := list_ascii_of_string s.

Definition code (c : ascii) : nat := nat_of_ascii c.

Definition between (lo hi n : nat) : bool := (lo <=? n) && (n <=? hi).

(** [str.isspace] on one character, which is also the class [\s]:
    TAB..CR, FS..US, space, NEL and NBSP. *)
Definition is_space (c : ascii) : bool :=
  let n := code c in
  between 9 13 n || between 28 32 n || (n =? 133) || (n =? 160).

(** The class [\d]. *)
Definition is_digit (c : ascii) : bool := between 48 57 (code c).

(** [str.lower] on one character: A..Z and the Latin-1 capitals (all of
    0xC0..0xDE but the multiplication sign 0xD7) move up by 32. *)
Definition lower_char (c : ascii) : ascii :=
  let n := code c in
  if between 65 90 n || (between 192 222 n && negb (n =? 215))
  then ascii_of_nat (n + 32) else c.

Definition lower (s : str) : str := map lower_char s.

Fixpoint eqb (a b : str) : bool :=
  match a, b with
  | [], [] => true
  | x :: a', y :: b' => Ascii.eqb x y && eqb a' b'
  | _, _ => false
  end.

(** [s.startswith(p)]. *)
Fixpoint startswith (p s : str) : bool :=
  match p, s with
  | [], _ => true
  | x :: p', y :: s' => Ascii.eqb x y && startswith p' s'
  | _ :: _, [] => false
  end.

(** [sub in s]. *)
Fixpoint contains (sub s : str) : bool :=
  startswith sub s ||
  match s with
  | [] => false
  | _ :: s' => contains sub s'
  end.

Fixpoint dropwhile (p : ascii -> bool) (s : str) : str :=
  match s with
  | [] => []
  | c :: s' => if p c then dropwhile p s' else s
  end.

Fixpoint takewhile (p : ascii -> bool) (s : str) : str :=
  match s with
  | [] => []
  | c :: s' => if p c then c :: takewhile p s' else []
  end.

(** The text begins with a character of the class. *)
Definition begins (p : ascii -> bool) (s : str) : bool :=
  match s with
  | c :: _ => p c
  | [] => false
  end.

Definition lstrip (s : str) : str := dropwhile is_space s.
Definition rstrip_by (p : ascii -> bool) (s : str) : str :=
  rev (dropwhile p (rev s)).

(** [s.strip()]. *)
Definition strip (s : str) : str := lstrip (rstrip_by is_space s).

(** [s.rstrip(chars)]. *)
Definition rstrip (chars s : str) : str :=
  rstrip_by (fun c => existsb (Ascii.eqb c) chars) s.

(** [s[i:-j]] for literal [i] and [j]. *)
Definition slice_from_to_end (i j : nat) (s : str) : str :=
  firstn (length s - j - i) (skipn i s).

(** [s[b:e]]. *)
Definition substr (b e : nat) (s : str) : str := firstn (e - b) (skipn b s).

(** The first occurrence of [old] in [s]: the text before it and the text
    after it. *)
Fixpoint find (old s : str) : option (str * str) :=
  if startswith old s then Some ([], skipn (length old) s)
  else match s with
       | [] => None
       | c :: s' =>
           match find old s' with
           | Some (pre, post) => Some (c :: pre, post)
           | None => None
           end
       end.

Fixpoint replace_loop (fuel : nat) (old new s : str) : str :=
  match fuel with
  | 0 => s
  | S fuel' =>
      match find old s with
      | None => s
      | Some (pre, post) => pre ++ new ++ replace_loop fuel' old new post
      end
  end.

(** [s.replace(old, new)]: every occurrence, found left to right and not
    overlapping; an empty [old] matches between any two characters. *)
Definition replace (old new s : str) : str :=
  match old with
  | [] => new ++ flat_map (fun c => c :: new) s
  | _ :: _ => replace_loop (S (length s)) old new s
  end.

End PyStr.

Import PyStr.

(* ===================================================================== *)
(** ** Python regular expressions *)
(* ===================================================================== *)

Module Re.

(** The fragment of the pattern language the engine uses.  A repetition is
    always over a character class here ([\d+], [\s*], [\s+]). *)
Inductive regex : Type :=
| Eps
| Bol                                  (* ^ *)
| Cls (p : ascii -> bool)              (* one character of a class *)
| Cat (a b : regex)
| Alt (a b : regex)                    (* a|b, [a] tried first *)
| Opt (a : regex)                      (* a?, greedy *)
| Star (p : ascii -> bool)             (* [p]*, greedy *)
| Grp (n : nat) (a : regex).           (* capturing group number n *)

(** A position of the matcher in the subject: the offset, the text that is
    left, and the spans of the groups closed so far. *)
Record cursor : Type := Cursor {
  c_pos : nat;
  c_rest : str;
  c_groups : list (nat * (nat * nat))
}.

Fixpoint star (p : ascii -> bool) (pos : nat) (s : str)
  (g : list (nat * (nat * nat))) : list cursor :=
  match s with
  | c :: s' =>
      if p c then star p (S pos) s' g ++ [Cursor pos s g]
      else [Cursor pos s g]
  | [] => [Cursor pos s g]
  end.

Fixpoint matches (r : regex) (cur : cursor) : list cursor :=
  match r with
  | Eps => [cur]
  | Bol => if c_pos cur =? 0 then [cur] else []
  | Cls p =>
      match c_rest cur with
      | c :: s' =>
          if p c then [Cursor (S (c_pos cur)) s' (c_groups cur)] else []
      | [] => []
      end
  | Cat a b => flat_map (matches b) (matches a cur)
  | Alt a b => matches a cur ++ matches b cur
  | Opt a => matches a cur ++ [cur]
  | Star p => star p (c_pos cur) (c_rest cur) (c_groups cur)
  | Grp n a =>
      map (fun c' =>
             Cursor (c_pos c') (c_rest c')
                    ((n, (c_pos cur, c_pos c')) :: c_groups c'))
          (matches a cur)
  end.

(** The match found at offset [pos], where [s] is the subject from [pos] on.
    With [adv] set an empty match is refused ([must_advance] of the C
    implementation, set by [sub] after an empty match). *)
Definition match_at (r : regex) (adv : bool) (pos : nat) (s : str)
  : option cursor :=
  List.find (fun c => negb adv || negb (c_pos c =? pos))
            (matches r (Cursor pos s [])).

(** A match object: where the match starts and the cursor at its end. *)
Record mobj : Type := Mobj { m_start : nat; m_end : cursor }.

(** [pattern.match(s)]. *)
Definition re_match (r : regex) (s : str) : option mobj :=
  option_map (Mobj 0) (match_at r false 0 s).

(** The scan of [pattern.search]: the start offsets are tried left to
    right.  The result is the text skipped before the match and the match. *)
Fixpoint search_from (r : regex) (adv : bool) (pos : nat) (s : str)
  : option (str * mobj) :=
  match match_at r adv pos s with
  | Some c => Some ([], Mobj pos c)
  | None =>
      match s with
      | [] => None
      | a :: s' =>
          match search_from r false (S pos) s' with
          | Some (pre, m) => Some (a :: pre, m)
          | None => None
          end
      end
  end.

(** [pattern.search(s)]. *)
Definition search (r : regex) (s : str) : option mobj :=
  option_map snd (search_from r false 0 s).

(** [m.group(0)] and [m.group(n)] of a match in subject [s]; a group that
    took no part in the match is [None]. *)
Definition group0 (s : str) (m : mobj) : str :=
  substr (m_start m) (c_pos (m_end m)) s.

Fixpoint span_of (n : nat) (g : list (nat * (nat * nat)))
  : option (nat * nat) :=
  match g with
  | [] => None
  | (k, sp) :: g' => if k =? n then Some sp else span_of n g'
  end.

Definition group (s : str) (n : nat) (m : mobj) : option str :=
  option_map (fun sp => substr (fst sp) (snd sp) s)
             (span_of n (c_groups (m_end m))).

(** The loop of [pattern.sub(repl, s)] for a literal replacement: search,
    copy the text before the match, emit the replacement, go on after the
    match. *)
Fixpoint sub_loop (fuel : nat) (r : regex) (repl : str) (adv : bool)
  (pos : nat) (s : str) : str :=
  match fuel with
  | 0 => s
  | S fuel' =>
      match search_from r adv pos s with
      | None => s
      | Some (pre, m) =>
          pre ++ repl ++
          sub_loop fuel' r repl (c_pos (m_end m) =? m_start m)
                   (c_pos (m_end m)) (c_rest (m_end m))
      end
  end.

(** [re.sub(pattern, repl, s)]. *)
Definition sub (r : regex) (repl s : str) : str :=
  sub_loop (2 * length s + 2) r repl false 0 s.

(** *** Pattern syntax *)

Definition chr (ci : bool) (c : ascii) : regex :=
  Cls (fun x => if ci then Ascii.eqb (lower_char x) (lower_char c)
                else Ascii.eqb x c).

(** A literal word; [ci] is the flag [re.IGNORECASE]. *)
Fixpoint word (ci : bool) (w : str) : regex :=
  match w with
  | [] => Eps
  | [c] => chr ci c
  | c :: w' => Cat (chr ci c) (word ci w')
  end.

Definition plus (p : ascii -> bool) : regex := Cat (Cls p) (Star p).

(** [r1|r2|...|rn]. *)
Fixpoint alts (r : regex) (rs : list regex) : regex :=
  match rs with
  | [] => r
  | r' :: rs' => Alt r (alts r' rs')
  end.

End Re.

Import Re.

Declare Scope re_scope.
Delimit Scope re_scope with re.
Infix "+++" := Cat (at level 60, right associativity) : re_scope.

Infix "<|>" := Alt (at level 65, right associativity) : re_scope.

(* ===================================================================== *)
(** ** Values, dictionaries and the model service *)
(* ===================================================================== *)

(** What [json.loads] returns.  Of a float only its truth value is kept. *)
#[local] Unset Elimination Schemes.
Inductive json : Type :=
| JNull
| JBool (b : bool)
| JInt (z : Z)
| JFloat (nonzero : bool)
| JStr (s : str)
| JArr (l : list json)
| JObj (d : list (str * json)).
#[local] Set Elimination Schemes.

(** A Python [dict] with string keys, in insertion order. *)
Definition dict := list (str * json).

(** [bool(v)]. *)
Definition truthy (v : json) : bool :=
  match v with
  | JNull => false
  | JBool b => b
  | JInt z => negb (Z.eqb z 0)
  | JFloat nonzero => nonzero
  | JStr s => negb (PyStr.eqb s [])
  | JArr l => match l with [] => false | _ => true end
  | JObj d => match d with [] => false | _ => true end
  end.

(** [d.get(k)]. *)
Fixpoint dict_get (k : str) (d : dict) : option json :=
  match d with
  | [] => None
  | (k', v) :: d' => if PyStr.eqb k' k then Some v else dict_get k d'
  end.

(** [d[k] = v]. *)
Fixpoint dict_set (k : str) (v : json) (d : dict) : dict :=
  match d with
  | [] => [(k, v)]
  | (k', v') :: d' =>
      if PyStr.eqb k' k then (k', v) :: d' else (k', v') :: dict_set k v d'
  end.

(** [bool(d.get(k))]. *)
Definition get_truthy (k : str) (d : dict) : bool :=
  match dict_get k d with
  | Some v => truthy v
  | None => false
  end.

(** The two requests the engine sends to the chat-completion service; the
    prompt is fixed by the kind of request and the medicine string. *)
Inductive request : Type :=
| ExtractRequest (medicine_string : str)
| DurationRequest (medicine_string : str).

(** What comes back: the call (or the access to
    [completion.choices[0].message]) raises, or there is a message whose
    [content] is a string or [None]. *)
Inductive completion : Type :=
| Raised
| Content (text : option str).

(** Computations that call the service. *)
Inductive io (A : Type) : Type :=
| Ret (a : A)
| Chat (req : request) (k : completion -> io A).

Arguments Ret {A} a.
Arguments Chat {A} req k.

Fixpoint bind {A B : Type} (m : io A) (f : A -> io B) : io B :=
  match m with
  | Ret a => f a
  | Chat req k => Chat req (fun c => bind (k c) f)
  end.

Notation "x <- m ;; f" := (bind m (fun x => f))
  (at level 61, m at next level, right associativity).

(** The requests of a computation when the service answers by [respond]. *)
Section Run.

Variable W : Type.
Variable respond : W -> request -> completion * W.

Fixpoint run {A : Type} (m : io A) (w : W) : A * W :=
  match m with
  | Ret a => (a, w)
  | Chat req k => let (c, w') := respond w req in run (k c) w'
  end.

End Run.

(** A service that answers from a script and raises when the script is
    over. *)
Definition scripted (w : list completion) (_ : request)
  : completion * list completion :=
  match w with
  | [] => (Raised, [])
  | c :: w' => (c, w')
  end.

(** An exception that leaves the engine. *)
Inductive exn : Type :=
| KeyError (k : str).

Inductive result (A : Type) : Type :=
| Ok (a : A)
| Raise (e : exn).

Arguments Ok {A} a.
Arguments Raise {A} e.

(* ===================================================================== *)
(** ** MedicineGroqParser *)
(* ===================================================================== *)

Local Open Scope re_scope.

(** [\d+(?:\.\d+)?] *)
Definition number : regex :=
  plus is_digit +++ Opt (chr false "."%char +++ plus is_digit).

Definition ws0 : regex := Star is_space.
Definition ws1 : regex := plus is_space.

(** A word of a pattern compiled with [re.IGNORECASE]. *)
Definition iw (w : string) : regex := word true (lit w).

Definition strength_pattern : regex :=
  (Grp 1 number +++ ws0 +++
   alts (iw "micrograms") [iw "mcg"; iw "mg"; iw "g"; iw "ml"; iw "%"] +++
   chr true "/"%char +++ Opt number +++ ws0 +++
   Opt (alts (iw "ml") [iw "l"]))
  <|>
  (Grp 2 number +++ ws0 +++
   alts (iw "micrograms") [iw "mcg"; iw "mg"; iw "g"; iw "ml"]).

Definition formulation_pattern : regex :=
  Grp 1 (alts
    (iw "tablet" +++ Opt (iw "s"))
    [ iw "capsule" +++ Opt (iw "s");
      Opt (iw "pre-filled" +++ ws1) +++ iw "syringe" +++ Opt (iw "s");
      Opt (iw "transdermal" +++ ws1) +++ iw "patche" +++ Opt (iw "s");
      iw "oral" +++ ws1 +++ iw "solution";
      iw "suspension";
      iw "cream";
      iw "ointment";
      iw "injection";
      iw "powder";
      iw "liquid";
      iw "ampoule" +++ Opt (iw "s");
      iw "bottle" +++ Opt (iw "s") ]).

Definition patch_duration_pattern : regex :=
  Grp 1 number +++ ws0 +++
  alts (iw "day") [iw "days"; iw "hour"; iw "hours"; iw "hr"; iw "hrs"].

(** A word of a pattern compiled without flags. *)
Definition w (s : string) : regex := word false (lit s).

(** The pattern of [clean_duration]. *)
Definition clean_duration_pattern : regex :=
  Grp 1 (plus is_digit) +++ ws0 +++
  alts (w "day") [w "days"; w "hour"; w "hours"; w "hr"; w "hrs"].

(** The patterns of the name cleanup. *)
Definition generic_pattern : regex :=
  Bol +++ w "Generic" +++ ws1.
Definition sterile_pattern : regex :=
  ws1 +++ w "sterile" +++ ws1.
Definition spaces_pattern : regex := ws1.

(** [m.group(n)] inside an f-string. *)
Definition format_group (g : option str) : str :=
  match g with
  | Some s => s
  | None => lit "None"
  end.

Definition clean_duration (duration : str) : str :=
  match duration with
  | [] => []
  | _ :: _ =>
      let duration := strip (lower duration) in
      match re_match clean_duration_pattern duration with
      | Some m =>
          let number := format_group (group duration 1 m) in
          if contains (lit "hour") duration || contains (lit "hr") duration
          then number ++ lit " hours"
          else number ++ lit " days"
      | None => []
      end
  end.

(** Lines 52-61 of [get_patch_duration_from_llm]: the duration read from
    the completion. *)
Definition duration_of_completion (completion : completion) : str :=
  match completion with
  | Content (Some content) =>
      let duration := lower (strip content) in
      if PyStr.eqb duration (lit "unknown") then []
      else clean_duration duration
  | Content None => []     (* AttributeError, caught *)
  | Raised => []
  end.

Definition get_patch_duration_from_llm (medicine_string : str) : io str :=
  Chat (DurationRequest medicine_string)
       (fun completion => Ret (duration_of_completion completion)).

(** [m.group(0)] for a search of [pattern] in [s], the empty string when
    nothing is found. *)
Definition search_group0 (pattern : regex) (s : str) : str :=
  match search pattern s with
  | Some m => group0 s m
  | None => []
  end.

Definition is_patch (medicine_string : str) : bool :=
  contains (lit "patch") (lower medicine_string).

(** Lines 150-159 of [extract_components_regex]: the name. *)
Definition regex_name (medicine_string strength formulation : str) : str :=
  let name := medicine_string in
  let name := match strength with
              | [] => name
              | _ :: _ => replace strength [] name
              end in
  let name := match formulation with
              | [] => name
              | _ :: _ => replace formulation [] name
              end in
  let name := sub generic_pattern [] name in
  let name := sub sterile_pattern (lit " ") name in
  let name := sub spaces_pattern (lit " ") name in
  rstrip (lit " -,.") (strip name).

Definition extract_components_regex (medicine_string : str) : io dict :=
  let strength := search_group0 strength_pattern medicine_string in
  let formulation := search_group0 formulation_pattern medicine_string in
  let name := regex_name medicine_string strength formulation in
  let result := [ (lit "name", JStr name);
                  (lit "strength", JStr strength);
                  (lit "formulation", JStr formulation) ] in
  if is_patch medicine_string then
    match search patch_duration_pattern medicine_string with
    | Some explicit_duration =>
        Ret (dict_set (lit "duration")
               (JStr (clean_duration (group0 medicine_string explicit_duration)))
               result)
    | None =>
        duration <- get_patch_duration_from_llm medicine_string ;;
        Ret (dict_set (lit "duration") (JStr duration) result)
    end
  else Ret result.

Definition fence : str := lit "```json".

(** An item of the input list, [{"NM": ..., "VPID": ...}]. *)
Record medicine : Type := Medicine { NM : str; VPID : json }.

Section Engine.

(** [json.loads]; [None] stands for any exception it raises. *)
Variable json_loads : str -> option json.

(** Lines 111-112: the text handed to [json.loads]. *)
Definition unfenced (response_text : str) : str :=
  if startswith fence response_text
  then slice_from_to_end 7 3 response_text
  else response_text.

(** Lines 116-122: the two fields validated against the patterns. *)
Definition fill (key : str) (pattern : regex) (medicine_string : str)
  (result : dict) : dict :=
  if get_truthy key result then result
  else dict_set key (JStr (search_group0 pattern medicine_string)) result.

Definition extract_components (medicine_string : str) : io dict :=
  Chat (ExtractRequest medicine_string) (fun completion =>
    match completion with
    | Content (Some response_text) =>
        match json_loads (unfenced response_text) with
        | Some (JObj result) =>
            let result := fill (lit "strength") strength_pattern
                            medicine_string result in
            let result := fill (lit "formulation") formulation_pattern
                            medicine_string result in
            if is_patch medicine_string then
              match search patch_duration_pattern medicine_string with
              | Some explicit_duration =>
                  Ret (dict_set (lit "duration")
                         (JStr (clean_duration
                                  (group0 medicine_string explicit_duration)))
                         result)
              | None =>
                  if get_truthy (lit "duration") result then Ret result
                  else
                    duration <- get_patch_duration_from_llm medicine_string ;;
                    Ret (dict_set (lit "duration") (JStr duration) result)
              end
            else Ret result
        | Some _ =>
            (* AttributeError: only a dict has [get] *)
            extract_components_regex medicine_string
        | None =>
            (* json.JSONDecodeError, or another exception of the decoder *)
            extract_components_regex medicine_string
        end
    | Content None =>
        (* AttributeError: None has no [startswith] *)
        extract_components_regex medicine_string
    | Raised =>
        extract_components_regex medicine_string
    end).

(** [components[k]] for the keys read by [process_medicine_list]. *)
Definition lookup (k : str) (components : dict) : result json :=
  match dict_get k components with
  | Some v => Ok v
  | None => Raise (KeyError k)
  end.

(** [components.get('duration', '')]. *)
Definition get_duration (components : dict) : json :=
  match dict_get (lit "duration") components with
  | Some v => v
  | None => JStr []
  end.

(** Lines 183-193: the output item of one medicine. *)
Definition processed_medicine (medicine : medicine) (components : dict)
  : result dict :=
  match lookup (lit "name") components with
  | Raise e => Raise e
  | Ok name =>
  match lookup (lit "strength") components with
  | Raise e => Raise e
  | Ok strength =>
  match lookup (lit "formulation") components with
  | Raise e => Raise e
  | Ok formulation =>
      let item := [ (lit "VPID", VPID medicine);
                    (lit "original_name", JStr (NM medicine));
                    (lit "name", name);
                    (lit "strength", strength);
                    (lit "formulation", formulation) ] in
      Ok (if is_patch (NM medicine)
          then dict_set (lit "duration") (get_duration components) item
          else item)
  end end end.

(** The loop of [process_medicine_list]; [processed_medicines] is the list
    built so far. *)
Fixpoint process_loop (medicines : list medicine)
  (processed_medicines : list dict) : io (result (list dict)) :=
  match medicines with
  | [] => Ret (Ok processed_medicines)
  | medicine :: medicines' =>
      components <- extract_components (NM medicine) ;;
      match processed_medicine medicine components with
      | Raise e => Ret (Raise e)
      | Ok item => process_loop medicines' (processed_medicines ++ [item])
      end
  end.

Definition process_medicine_list (medicines : list medicine)
  : io (result (list dict)) :=
  process_loop medicines [].

End Engine.

(* ===================================================================== *)
(** ** Example texts and a decoder for them *)
(* ===================================================================== *)

Definition dq : ascii := "034"%char.
Definition nl : ascii := "010"%char.

(** A word between double quotes. *)
Definition quoted (s : string) : str := dq :: lit s ++ [dq].

(** A decoder for the JSON texts of the examples: one object whose keys and
    values are strings without escapes.  It instantiates [json_loads] in the
    examples only; the theorems hold for every decoder. *)
Module Flat.

Definition json_ws (c : ascii) : bool :=
  let n := code c in (n =? 32) || (n =? 9) || (n =? 10) || (n =? 13).

Definition skip (s : str) : str := dropwhile json_ws s.

(** After the opening quote: the contents and the text after the closing
    quote. *)
Fixpoint scan_string (s : str) : option (str * str) :=
  match s with
  | [] => None
  | c :: s' =>
      if Ascii.eqb c dq then Some ([], s')
      else if (code c =? 92) || (code c <? 32) then None
      else match scan_string s' with
           | Some (body, rest) => Some (c :: body, rest)
           | None => None
           end
  end.

Definition string_token (s : str) : option (str * str) :=
  match skip s with
  | c :: s' => if Ascii.eqb c dq then scan_string s' else None
  | [] => None
  end.

Fixpoint members (fuel : nat) (s : str) (acc : dict) : option (dict * str) :=
  match fuel with
  | 0 => None
  | S fuel' =>
      match string_token s with
      | None => None
      | Some (k, s1) =>
          match skip s1 with
          | c :: s2 =>
              if negb (Ascii.eqb c ":") then None else
              match string_token s2 with
              | None => None
              | Some (v, s3) =>
                  let acc' := dict_set k (JStr v) acc in
                  match skip s3 with
                  | c' :: s4 =>
                      if Ascii.eqb c' "," then members fuel' s4 acc'
                      else if Ascii.eqb c' "}" then Some (acc', s4)
                      else None
                  | [] => None
                  end
              end
          | [] => None
          end
      end
  end.

Definition loads (s : str) : option json :=
  match skip s with
  | c :: s1 =>
      if negb (Ascii.eqb c "{") then None else
      match skip s1 with
      | c' :: s2 =>
          if Ascii.eqb c' "}"
          then match skip s2 with [] => Some (JObj []) | _ => None end
          else match members (length s) s1 [] with
               | Some (d, s3) =>
                   match skip s3 with [] => Some (JObj d) | _ => None end
               | None => None
               end
      | [] => None
      end
  | [] => None
  end.

End Flat.

(** [{"name":"X"}] between a [```json] fence and a closing fence. *)
Definition fenced_reply : str :=
  fence ++ [nl] ++ lit "{" ++ quoted "name" ++ lit ":" ++ quoted "X"
        ++ lit "}" ++ [nl] ++ lit "```".

(** [{"name": "Fentanyl", "formulation": "patch", "duration": "72 hrs"}] *)
Definition reply_with_duration : str :=
  lit "{" ++ quoted "name" ++ lit ": " ++ quoted "Fentanyl" ++ lit ", "
    ++ quoted "formulation" ++ lit ": " ++ quoted "patch" ++ lit ", "
    ++ quoted "duration" ++ lit ": " ++ quoted "72 hrs" ++ lit "}".

(** [{"strength": "5mg", "formulation": "tablets"}] *)
Definition reply_without_name : str :=
  lit "{" ++ quoted "strength" ++ lit ": " ++ quoted "5mg" ++ lit ", "
    ++ quoted "formulation" ++ lit ": " ++ quoted "tablets" ++ lit "}".

(* ===================================================================== *)
(** ** Predicates and data of the properties *)
(* ===================================================================== *)

Definition begins_with_digit (s : str) : bool := begins is_digit s.

(** The canonical form of a duration: empty, or an integer followed by
    " days" or " hours". *)
Definition is_canonical (d : str) : bool :=
  match d with
  | [] => true
  | _ :: _ =>
      let n := takewhile is_digit d in
      let unit := skipn (length n) d in
      negb (PyStr.eqb n []) &&
      (PyStr.eqb unit (lit " days") || PyStr.eqb unit (lit " hours"))
  end.

Definition duration_reply_dict : dict :=
  [ (lit "name", JStr (lit "Fentanyl"));
    (lit "formulation", JStr (lit "patch"));
    (lit "duration", JStr (lit "72 hrs")) ].

Definition three_medicines : list medicine :=
  [ Medicine (lit "Aspirin 5mg tablets") (JStr (lit "101"));
    Medicine (lit "Fentanyl patch") (JStr (lit "102"));
    Medicine (lit "Generic Aspirin 325mg tablets") (JStr (lit "103")) ].

(** The model call failed: it raised, or the text of its response is
    refused by [json.loads]. *)
Definition call_failed (json_loads : str -> option json) (c : completion)
  : bool :=
  match c with
  | Raised => true
  | Content (Some response_text) =>
      match json_loads (unfenced response_text) with
      | None => true
      | Some _ => false
      end
  | Content None => false
  end.

(** The model returned no value, or an empty string, under key [k]. *)
Definition empty_or_missing (k : str) (d : dict) : bool :=
  match dict_get k d with
  | None => true
  | Some (JStr []) => true
  | Some _ => false
  end.

(** The pattern extractor sends a duration request: the string names a patch
    and has no explicit duration. *)
Definition asks_model (medicine_string : str) : bool :=
  is_patch medicine_string &&
  match search patch_duration_pattern medicine_string with
  | Some _ => false
  | None => true
  end.

(* ===================================================================== *)
(** ** The name derivation in the words of the specification *)
(* ===================================================================== *)

Module Described.

(** One pass over a text, left to right.  Where [token] recognises a token
    at the head of the text (it gives the text after the token) the token is
    replaced by [repl] and the pass goes on after it; any other character is
    copied. *)
Fixpoint scan (fuel : nat) (token : str -> option str) (repl s : str)
  : str :=
  match fuel with
  | 0 => s
  | S fuel' =>
      match token s with
      | Some rest => repl ++ scan fuel' token repl rest
      | None =>
          match s with
          | [] => []
          | c :: s' => c :: scan fuel' token repl s'
          end
      end
  end.

Definition pass (token : str -> option str) (repl s : str) : str :=
  scan (S (length s)) token repl s.

(** A literal occurrence of [old]. *)
Definition occurrence (old s : str) : option str :=
  if startswith old s then Some (skipn (length old) s) else None.

(** Whitespace, the word "sterile", whitespace. *)
Definition sterile_token (s : str) : option str :=
  let after_run := dropwhile is_space s in
  let after_word := skipn 7 after_run in
  if begins is_space s && startswith (lit "sterile") after_run
     && begins is_space after_word
  then Some (dropwhile is_space after_word)
  else None.

(** A run of whitespace. *)
Definition space_run (s : str) : option str :=
  if begins is_space s then Some (dropwhile is_space s) else None.

(** Remove the first literal occurrence of [old]. *)
Fixpoint remove_first (old s : str) : str :=
  if startswith old s then skipn (length old) s
  else match s with
       | [] => []
       | c :: s' => c :: remove_first old s'
       end.

(** Remove every literal occurrence of [old]. *)
Definition remove_every (old s : str) : str := pass (occurrence old) [] s.

(** Strip a leading "Generic" with the whitespace that follows it. *)
Definition strip_generic (s : str) : str :=
  let rest := skipn 7 s in
  if startswith (lit "Generic") s && begins is_space rest
  then dropwhile is_space rest
  else s.

Definition collapse_sterile (s : str) : str :=
  pass sterile_token (lit " ") s.

Definition collapse_spaces (s : str) : str := pass space_run (lit " ") s.

(** A token starts somewhere in the text. *)
Fixpoint has_token (token : str -> option str) (s : str) : bool :=
  match token s with
  | Some _ => true
  | None =>
      match s with
      | [] => false
      | _ :: s' => has_token token s'
      end
  end.

(** The pipeline, for a way [remove] of removing a matched substring. *)
Definition name_by (remove : str -> str -> str)
  (raw strength formulation : str) : str :=
  let name := match strength with
              | [] => raw
              | _ :: _ => remove strength raw
              end in
  let name := match formulation with
              | [] => name
              | _ :: _ => remove formulation name
              end in
  rstrip (lit " -,.")
    (strip (collapse_spaces (collapse_sterile (strip_generic name)))).

End Described.

(** The shape of a cleaned name: every whitespace character is a space, no
    two of them are adjacent, the name does not begin with one and does not
    end with a space, a hyphen, a comma or a period. *)
Definition only_blanks (s : str) : bool :=
  forallb (fun c => negb (is_space c) || Ascii.eqb c " ") s.




(** An output item of [process_medicine_list] for the input item [m]: the
    identifier and the raw name are those of [m], and there is a duration
    exactly when the raw name contains "patch", whatever its case. *)
Definition item_of (m : medicine) (item : dict) : Prop :=
  dict_get (lit "VPID") item = Some (VPID m) /\
  dict_get (lit "original_name") item = Some (JStr (NM m)) /\
  (dict_get (lit "duration") item <> None <-> is_patch (NM m) = true).

(** The pattern has no capturing group. *)
Fixpoint group_free (r : regex) : bool :=
  match r with
  | Eps | Bol | Cls _ | Star _ => true
  | Cat a b | Alt a b => group_free a && group_free b
  | Opt a => group_free a
  | Grp _ _ => false
  end.

(* ===================================================================== *)
(** ** Further predicates and functions of the properties *)
(* ===================================================================== *)

(** The alternation of units in the pattern of [clean_duration]. *)
Definition duration_units : regex :=
  alts (w "day") [w "days"; w "hour"; w "hours"; w "hr"; w "hrs"].

(** What [clean_duration] computes, written without a pattern: the leading
    digits of the lowercased, trimmed text, which must be followed, after
    optional whitespace, by "day", "hour" or "hr". *)
Definition clean_duration_direct (duration : str) : str :=
  match duration with
  | [] => []
  | _ :: _ =>
      let text := strip (lower duration) in
      let number := takewhile is_digit text in
      let unit := dropwhile is_space (dropwhile is_digit text) in
      if negb (PyStr.eqb number []) &&
         (startswith (lit "day") unit || startswith (lit "hour") unit
          || startswith (lit "hr") unit)
      then number ++ (if contains (lit "hour") text || contains (lit "hr") text
                      then lit " hours" else lit " days")
      else []
  end.

(** The texts a pattern can match, whatever the order in which the matcher
    tries them. *)
Fixpoint lang (r : regex) (t : str) : Prop :=
  match r with
  | Eps => t = []
  | Bol => t = []
  | Cls p => exists c, t = [c] /\ p c = true
  | Cat a b => exists t1 t2, t = t1 ++ t2 /\ lang a t1 /\ lang b t2
  | Alt a b => lang a t \/ lang b t
  | Opt a => t = [] \/ lang a t
  | Star p => forallb p t = true
  | Grp _ a => lang a t
  end.

(** The units of the strength pattern and the words of the formulation
    pattern that a match cannot do without. *)
Definition strength_units : list str :=
  [lit "micrograms"; lit "mcg"; lit "mg"; lit "g"; lit "ml"; lit "%"].

Definition formulation_words : list str :=
  [lit "tablet"; lit "capsule"; lit "syringe"; lit "patche";
   lit "solution"; lit "suspension"; lit "cream"; lit "ointment";
   lit "injection"; lit "powder"; lit "liquid"; lit "ampoule";
   lit "bottle"].

(** One of the words occurs in the text. *)
Definition mentions (words : list str) (text : str) : bool :=
  existsb (fun word => contains word text) words.

(** The duration of the explicit tier, read off the matched text: nothing
    when a fraction follows the leading digits, else these digits with
    "hours" when the unit begins with an "h" and "days" otherwise. *)
Definition explicit_duration (matched : str) : str :=
  let number := takewhile is_digit matched in
  let after := dropwhile is_digit matched in
  let unit := lower (dropwhile is_space after) in
  if begins (Ascii.eqb ".") after then []
  else number ++ (if begins (Ascii.eqb "h") unit then lit " hours"
                  else lit " days").

(** The requests that a run sends to the service, in the order in which it
    sends them. *)
Section Asked.

Variable W : Type.
Variable respond : W -> request -> completion * W.

Fixpoint asked {A : Type} (m : io A) (w : W) : list request :=
  match m with
  | Ret _ => []
  | Chat req k => let (c, w') := respond w req in req :: asked (k c) w'
  end.

End Asked.

(** The object that the decoder gives for the content of a completion. *)
Definition reply_object (json_loads : str -> option json) (c : completion)
  : option dict :=
  match c with
  | Content (Some response_text) =>
      match json_loads (unfenced response_text) with
      | Some (JObj result) => Some result
      | _ => None
      end
  | _ => None
  end.

(** A decoder that reads every text as the empty list. *)
Definition loads_list (_ : str) : option json := Some (JArr []).

(** The requests for the components of a medicine, among the requests of a
    run. *)
Definition is_extraction (req : request) : bool :=
  match req with
  | ExtractRequest _ => true
  | DurationRequest _ => false
  end.

(** The duration that a response supplies. *)
Definition supplies_duration (json_loads : str -> option json)
  (c : completion) : bool :=
  match reply_object json_loads c with
  | Some result => get_truthy (lit "duration") result
  | None => false
  end.

(** [a] is [b] with some of its characters deleted. *)
Inductive subseq : str -> str -> Prop :=
| subseq_nil : subseq [] []
| subseq_skip (c : ascii) (a b : str) : subseq a b -> subseq a (c :: b)
| subseq_keep (c : ascii) (a b : str) : subseq a b -> subseq (c :: a) (c :: b).

(** The characters of a text that are not whitespace. *)
Definition visible (s : str) : str := filter (fun c => negb (is_space c)) s.

(** The comparison of a pattern compiled with [re.IGNORECASE]: [x] is
    accepted where the pattern has the letter [c]; it is the class of
    [Re.chr true c]. *)
Definition same_letter (c x : ascii) : bool :=
  Ascii.eqb (lower_char x) (lower_char c).

(** [text] begins with [word], letter by letter under that comparison. *)
Fixpoint startswith_ci (word text : str) : bool :=
  match word, text with
  | [], _ => true
  | c :: word', x :: text' => same_letter c x && startswith_ci word' text'
  | _ :: _, [] => false
  end.

(** [word] occurs in [text] under that comparison. *)
Fixpoint contains_ci (word text : str) : bool :=
  startswith_ci word text ||
  match text with
  | [] => false
  | _ :: text' => contains_ci word text'
  end.

Definition mentions_ci (words : list str) (text : str) : bool :=
  existsb (fun word => contains_ci word text) words.

(** The raw string after every occurrence of the strength and then of the
    formulation has been removed from it (lines 150-154). *)
Definition left_after_removals (raw strength formulation : str) : str :=
  let name := raw in
  let name := match strength with
              | [] => name
              | _ :: _ => replace strength [] name
              end in
  match formulation with
  | [] => name
  | _ :: _ => replace formulation [] name
  end.

(** The text has a whitespace character in it. *)
Definition has_space (s : str) : bool := existsb is_space s.

(** The text begins with [word] and whitespace after it. *)
Definition word_then_space (word s : str) : bool :=
  startswith word s && begins is_space (skipn (length word) s).


(** "sterile" twice in a row: whitespace, "sterile", whitespace, "sterile",
    whitespace. *)
Definition sterile_twice (s : str) : option str :=
  match Described.sterile_token s with
  | Some rest =>
      if word_then_space (lit "sterile") rest then Some rest else None
  | None => None
  end.

(** The removal of [removed] is settled in [left], the text that the two
    removals leave: [left] does not contain it, and the later steps cannot
    bring it together, either because it has no whitespace in it, or
    because [left] has no whitespace-delimited "sterile" and does not
    contain it once the runs of whitespace are collapsed. *)
Definition settled (removed left : str) : bool :=
  (negb (has_space removed) && negb (contains removed left)) ||
  (negb (Described.has_token Described.sterile_token left) &&
   negb (contains removed (sub spaces_pattern (lit " ") left))).

(* ===================================================================== *)
(** ** Dictionaries and runs: basic facts *)
(* ===================================================================== *)

Lemma ascii_eqb_refl (c : ascii) : Ascii.eqb c c = true.
Proof. apply Ascii.eqb_eq. reflexivity. Qed.

Lemma str_eqb_eq (a b : str) : PyStr.eqb a b = true <-> a = b.
Proof.
  revert b. induction a as [|x a IH]; intros [|y b]; simpl; split;
    try discriminate; try reflexivity.
  - intros H. apply andb_true_iff in H as [Hx Hab].
    apply Ascii.eqb_eq in Hx. apply IH in Hab. congruence.
  - intros H. injection H as -> ->.
    rewrite ascii_eqb_refl. simpl. apply IH. reflexivity.
Qed.

Lemma str_eqb_refl (a : str) : PyStr.eqb a a = true.
Proof. apply str_eqb_eq. reflexivity. Qed.

Lemma dict_get_set_same (k : str) (v : json) (d : dict) :
  dict_get k (dict_set k v d) = Some v.
Proof.
  induction d as [|[k' v'] d IH]; simpl.
  - rewrite str_eqb_refl. reflexivity.
  - destruct (PyStr.eqb k' k) eqn:E; simpl; rewrite E; auto.
Qed.

Lemma dict_get_set_other (k k' : str) (v : json) (d : dict) :
  PyStr.eqb k' k = false ->
  dict_get k (dict_set k' v d) = dict_get k d.
Proof.
  intros Hk. induction d as [|[a x] d IH]; simpl.
  - rewrite Hk. reflexivity.
  - destruct (PyStr.eqb a k') eqn:E; simpl.
    + destruct (PyStr.eqb a k) eqn:E'; [|reflexivity].
      apply str_eqb_eq in E, E'. subst.
      rewrite str_eqb_refl in Hk. discriminate.
    + rewrite IH. reflexivity.
Qed.

(** The value of a validated field. *)
Lemma dict_get_fill_same (k : str) (pattern : regex) (s : str) (d : dict) :
  get_truthy k d = false ->
  dict_get k (fill k pattern s d) = Some (JStr (search_group0 pattern s)).
Proof.
  intros H. unfold fill. rewrite H. apply dict_get_set_same.
Qed.

Lemma dict_get_fill_other (k k' : str) (pattern : regex) (s : str)
  (d : dict) :
  PyStr.eqb k' k = false ->
  dict_get k (fill k' pattern s d) = dict_get k d.
Proof.
  intros H. unfold fill. destruct (get_truthy k' d); [reflexivity|].
  apply dict_get_set_other. exact H.
Qed.

Lemma run_bind (W : Type) (respond : W -> request -> completion * W)
  (A B : Type) (m : io A) (f : A -> io B) (w : W) :
  run respond (bind m f) w =
  run respond (f (fst (run respond m w))) (snd (run respond m w)).
Proof.
  revert w. induction m as [a|req k IH]; intros w; simpl.
  - reflexivity.
  - destruct (respond w req) as [c w']. apply IH.
Qed.

(* ===================================================================== *)
(** ** The duration normalizer *)
(* ===================================================================== *)

Lemma clean_duration_pattern_needs_digit (d : str) :
  begins_with_digit d = false -> re_match clean_duration_pattern d = None.
Proof.
  intros H. unfold re_match, match_at, clean_duration_pattern, plus.
  destruct d as [|c d]; cbn [matches c_rest flat_map map app List.find
                              option_map]; [reflexivity|].
  cbn [begins_with_digit begins] in H. rewrite H. reflexivity.
Qed.

(** C10.  When the lowercased, trimmed input does not begin with a digit,
    [clean_duration] returns the empty string: the pattern is applied with
    [re.match], at the start of the input, and is not searched for. *)
Theorem clean_duration_anchored (duration : str) :
  begins_with_digit (strip (lower duration)) = false ->
  clean_duration duration = [].
Proof.
  intros H. unfold clean_duration. destruct duration as [|c duration'].
  - reflexivity.
  - rewrite (clean_duration_pattern_needs_digit _ H). reflexivity.
Qed.

(** An input in which a duration occurs after other text: the search of the
    duration pattern finds it, [clean_duration] returns the empty string. *)
Lemma clean_duration_anchored_witness :
  begins_with_digit (strip (lower (lit "lasts 7 days"))) = false /\
  search_group0 patch_duration_pattern (lit "lasts 7 days") = lit "7 day" /\
  clean_duration (lit "lasts 7 days") = [].
Proof.
  split; [reflexivity|]. split; [vm_compute; reflexivity|].
  apply (clean_duration_anchored (lit "lasts 7 days")). reflexivity.
Defined.

(** The examples of the duration normalizer. *)
Lemma clean_duration_examples :
  clean_duration (lit "7 days") = lit "7 days" /\
  clean_duration (lit "24 HOURS") = lit "24 hours" /\
  clean_duration (lit "3 hrs") = lit "3 hours" /\
  clean_duration (lit "unknown") = [] /\
  clean_duration (lit "abc") = [].
Proof. vm_compute. repeat split. Qed.

(** C6.  The unit of the result is decided by a search for "hour" and "hr"
    in the whole lowercased input, not in the unit that the pattern matched:
    on "7 days (168 hours)" the pattern matches "7 day" and the result is
    "7 hours". *)
Theorem clean_duration_unit_from_whole_input :
  let duration := lit "7 days (168 hours)" in
  option_map (group0 duration) (re_match clean_duration_pattern duration)
    = Some (lit "7 day") /\
  clean_duration duration = lit "7 hours".
Proof. vm_compute. split; reflexivity. Qed.

(* ===================================================================== *)
(** ** The strength pattern *)
(* ===================================================================== *)

(** C7.  The unit "%" is accepted by the ratio alternative of the strength
    pattern and is missing from the bare alternative: "1%" is not found,
    "1%/ml" is. *)
Theorem strength_pattern_misses_bare_percent :
  search_group0 strength_pattern (lit "Hydrocortisone 1% cream") = [] /\
  search_group0 strength_pattern (lit "Hydrocortisone 1%/ml cream")
    = lit "1%/ml".
Proof. vm_compute. split; reflexivity. Qed.

(* ===================================================================== *)
(** ** The language-model extractor *)
(* ===================================================================== *)

(** C3.  A duration supplied in the model's response is kept as it is: for
    "Fentanyl patch" and a response whose duration is "72 hrs" the result
    carries "72 hrs", which is not canonical; the normalizer, applied by the
    two other tiers, would give "72 hours". *)
Theorem model_duration_not_normalized (json_loads : str -> option json) :
  json_loads reply_with_duration = Some (JObj duration_reply_dict) ->
  let out := fst (run scripted
                    (extract_components json_loads (lit "Fentanyl patch"))
                    [Content (Some reply_with_duration)]) in
  dict_get (lit "duration") out = Some (JStr (lit "72 hrs")) /\
  is_canonical (lit "72 hrs") = false /\
  clean_duration (lit "72 hrs") = lit "72 hours".
Proof.
  intros H. cbn [run scripted extract_components].
  change (unfenced reply_with_duration) with reply_with_duration.
  rewrite H. vm_compute. repeat split.
Qed.

Lemma model_duration_not_normalized_witness :
  dict_get (lit "duration")
    (fst (run scripted
            (extract_components Flat.loads (lit "Fentanyl patch"))
            [Content (Some reply_with_duration)]))
    = Some (JStr (lit "72 hrs")).
Proof.
  apply (model_duration_not_normalized Flat.loads). reflexivity.
Defined.

(** C8.  A response that decodes to an object without the key "name" makes
    [process_medicine_list] raise [KeyError]: no list is returned, whatever
    the other items are. *)
Theorem process_medicine_list_needs_name (json_loads : str -> option json) :
  json_loads reply_without_name
    = Some (JObj [ (lit "strength", JStr (lit "5mg"));
                   (lit "formulation", JStr (lit "tablets")) ]) ->
  fst (run scripted (process_medicine_list json_loads three_medicines)
         [Content (Some reply_without_name); Raised; Raised; Raised])
    = Raise (KeyError (lit "name")).
Proof.
  intros H. unfold process_medicine_list, three_medicines.
  cbn [process_loop NM]. rewrite run_bind.
  cbn [run scripted extract_components].
  change (unfenced reply_without_name) with reply_without_name.
  rewrite H. vm_compute. reflexivity.
Qed.

Lemma process_medicine_list_needs_name_witness :
  fst (run scripted (process_medicine_list Flat.loads three_medicines)
         [Content (Some reply_without_name); Raised; Raised; Raised])
    = Raise (KeyError (lit "name")).
Proof.
  apply (process_medicine_list_needs_name Flat.loads). reflexivity.
Defined.

(** The result of [extract_components] on a response that decodes to an
    object: the validated object, with or without a duration set. *)
Lemma extract_components_object (json_loads : str -> option json)
  (W : Type) (respond : W -> request -> completion * W) (w : W)
  (s text : str) (d : dict) :
  fst (respond w (ExtractRequest s)) = Content (Some text) ->
  json_loads (unfenced text) = Some (JObj d) ->
  let validated := fill (lit "formulation") formulation_pattern s
                     (fill (lit "strength") strength_pattern s d) in
  let out := fst (run respond (extract_components json_loads s) w) in
  out = validated \/ exists v, out = dict_set (lit "duration") v validated.
Proof.
  intros Hc Hd validated. cbn [run extract_components].
  destruct (respond w (ExtractRequest s)) as [c w']. cbn [fst] in Hc.
  subst c. rewrite Hd. fold validated.
  destruct (is_patch s); [|left; reflexivity].
  destruct (search patch_duration_pattern s) as [m|].
  - right. eexists. reflexivity.
  - destruct (get_truthy (lit "duration") validated); [left; reflexivity|].
    right. cbn [get_patch_duration_from_llm bind run].
    destruct (respond w' (DurationRequest s)) as [c' w'']. eexists.
    reflexivity.
Qed.

Lemma extract_components_object_get (json_loads : str -> option json)
  (W : Type) (respond : W -> request -> completion * W) (w : W)
  (s text k : str) (d : dict) :
  fst (respond w (ExtractRequest s)) = Content (Some text) ->
  json_loads (unfenced text) = Some (JObj d) ->
  PyStr.eqb (lit "duration") k = false ->
  dict_get k (fst (run respond (extract_components json_loads s) w)) =
  dict_get k (fill (lit "formulation") formulation_pattern s
                (fill (lit "strength") strength_pattern s d)).
Proof.
  intros Hc Hd Hk.
  destruct (extract_components_object json_loads respond w s Hc Hd)
    as [E|[v E]]; rewrite E; [reflexivity|].
  apply dict_get_set_other. exact Hk.
Qed.

(** C4.  When the model call raises or its response is not JSON,
    [extract_components] returns what [extract_components_regex] returns for
    the same string: the whole result, with no field of the response in it;
    no exception leaves [extract_components]. *)
Theorem fallback_is_pattern_extractor (json_loads : str -> option json)
  (W : Type) (respond : W -> request -> completion * W) (w : W) (s : str) :
  call_failed json_loads (fst (respond w (ExtractRequest s))) = true ->
  run respond (extract_components json_loads s) w =
  run respond (extract_components_regex s)
      (snd (respond w (ExtractRequest s))).
Proof.
  intros H. cbn [run extract_components].
  destruct (respond w (ExtractRequest s)) as [c w']. cbn [fst snd] in *.
  destruct c as [|[text|]]; cbn [call_failed] in H.
  - reflexivity.
  - destruct (json_loads (unfenced text)); [discriminate|reflexivity].
  - discriminate.
Qed.

Lemma fallback_is_pattern_extractor_witness :
  run scripted
      (extract_components Flat.loads (lit "Generic Aspirin 325mg tablets"))
      [Content (Some (lit "Sorry, I cannot help with that."))]
  = run scripted
      (extract_components_regex (lit "Generic Aspirin 325mg tablets")) [].
Proof.
  apply (fallback_is_pattern_extractor Flat.loads scripted
           [Content (Some (lit "Sorry, I cannot help with that."))]
           (lit "Generic Aspirin 325mg tablets")).
  reflexivity.
Defined.

Lemma empty_or_missing_falsy (k : str) (d : dict) :
  empty_or_missing k d = true -> get_truthy k d = false.
Proof.
  unfold empty_or_missing, get_truthy.
  destruct (dict_get k d) as [[| | | |[|c s]| |]|]; try discriminate;
    reflexivity.
Qed.

(** On a response that decodes to an object, a strength or formulation
    that is missing or empty is replaced by the match of the corresponding
    pattern in the raw string; a response that begins with the json fence
    and ends with the closing fence is decoded without its two fences; the
    response of the example gives name "X" with strength and formulation
    those of the patterns. *)
Theorem model_reply_filled_from_patterns (json_loads : str -> option json) :
  (forall (W : Type) (respond : W -> request -> completion * W) (w : W)
          (s text : str) (d : dict),
     fst (respond w (ExtractRequest s)) = Content (Some text) ->
     json_loads (unfenced text) = Some (JObj d) ->
     let out := fst (run respond (extract_components json_loads s) w) in
     (empty_or_missing (lit "strength") d = true ->
      dict_get (lit "strength") out
        = Some (JStr (search_group0 strength_pattern s))) /\
     (empty_or_missing (lit "formulation") d = true ->
      dict_get (lit "formulation") out
        = Some (JStr (search_group0 formulation_pattern s)))) /\
  (forall body : str, unfenced (fence ++ body ++ lit "```") = body) /\
  (json_loads ([nl] ++ lit "{" ++ quoted "name" ++ lit ":" ++ quoted "X"
                 ++ lit "}" ++ [nl])
     = Some (JObj [(lit "name", JStr (lit "X"))]) ->
   forall (W : Type) (respond : W -> request -> completion * W) (w : W)
          (s : str),
     fst (respond w (ExtractRequest s)) = Content (Some fenced_reply) ->
     let out := fst (run respond (extract_components json_loads s) w) in
     dict_get (lit "name") out = Some (JStr (lit "X")) /\
     dict_get (lit "strength") out
       = Some (JStr (search_group0 strength_pattern s)) /\
     dict_get (lit "formulation") out
       = Some (JStr (search_group0 formulation_pattern s))).
Proof.
  assert (Hfill : forall W (respond : W -> request -> completion * W) w
                         s text d,
    fst (respond w (ExtractRequest s)) = Content (Some text) ->
    json_loads (unfenced text) = Some (JObj d) ->
    let out := fst (run respond (extract_components json_loads s) w) in
    (empty_or_missing (lit "strength") d = true ->
     dict_get (lit "strength") out
       = Some (JStr (search_group0 strength_pattern s))) /\
    (empty_or_missing (lit "formulation") d = true ->
     dict_get (lit "formulation") out
       = Some (JStr (search_group0 formulation_pattern s)))).
  { intros W respond w s text d Hc Hd out. subst out. split; intros He.
    - rewrite (extract_components_object_get json_loads respond w s
                 (lit "strength") Hc Hd eq_refl).
      rewrite dict_get_fill_other by reflexivity.
      apply dict_get_fill_same, empty_or_missing_falsy, He.
    - rewrite (extract_components_object_get json_loads respond w s
                 (lit "formulation") Hc Hd eq_refl).
      apply dict_get_fill_same.
      unfold get_truthy. rewrite dict_get_fill_other by reflexivity.
      apply empty_or_missing_falsy, He. }
  split; [exact Hfill|]. split.
  - intros body. unfold unfenced, slice_from_to_end, fence.
    cbn [lit list_ascii_of_string startswith app Ascii.eqb Bool.eqb andb
         skipn].
    cbn [length]. rewrite length_app. cbn [length].
    replace (S (S (S (S (S (S (S (length body + 3))))))) - 3 - 7)
      with (length body) by lia.
    rewrite firstn_app, firstn_all, Nat.sub_diag. cbn [firstn].
    apply app_nil_r.
  - intros Hj W respond w s Hc out.
    assert (Hd : json_loads (unfenced fenced_reply)
                 = Some (JObj [(lit "name", JStr (lit "X"))]))
      by (rewrite <- Hj; reflexivity).
    destruct (Hfill W respond w s _ _ Hc Hd) as [Hs Hf].
    split; [|split; [apply Hs; reflexivity|apply Hf; reflexivity]].
    subst out.
    rewrite (extract_components_object_get json_loads respond w s
               (lit "name") Hc Hd eq_refl).
    rewrite !dict_get_fill_other by reflexivity. reflexivity.
Qed.

Lemma model_reply_filled_from_patterns_witness :
  let out := fst (run scripted
                    (extract_components Flat.loads
                       (lit "Aspirin 325mg tablets"))
                    [Content (Some fenced_reply)]) in
  dict_get (lit "name") out = Some (JStr (lit "X")) /\
  dict_get (lit "strength") out = Some (JStr (lit "325mg")) /\
  dict_get (lit "formulation") out = Some (JStr (lit "tablets")).
Proof.
  exact (proj2 (proj2 (model_reply_filled_from_patterns Flat.loads))
           eq_refl (list completion) scripted
           [Content (Some fenced_reply)] (lit "Aspirin 325mg tablets")
           eq_refl).
Defined.

(** C5.  The fences of a response are not always stripped before parsing:
    when a newline follows the closing fence of the response of the
    example, the first seven and the last three characters are dropped all
    the same, a backquote of the closing fence stays in the text given to
    the decoder, and once the decoder refuses that text the response is
    given up for the pattern extractor; the name "X" of the response is
    lost.  Trimming the response first, as the copy of this method in
    main.py does, leaves exactly the JSON text between the fences. *)
Theorem fence_left_before_newline (json_loads : str -> option json) :
  let body := [nl] ++ lit "{" ++ quoted "name" ++ lit ":" ++ quoted "X"
                ++ lit "}" ++ [nl] in
  let reply := fenced_reply ++ [nl] in
  json_loads (body ++ lit "`") = None ->
  startswith fence reply = true /\
  unfenced reply = body ++ lit "`" /\
  unfenced (strip reply) = body /\
  forall (W : Type) (respond : W -> request -> completion * W) (w : W)
         (s : str),
    fst (respond w (ExtractRequest s)) = Content (Some reply) ->
    run respond (extract_components json_loads s) w =
    run respond (extract_components_regex s)
        (snd (respond w (ExtractRequest s))).
Proof.
  intros body reply Hj.
  assert (Hu : unfenced reply = body ++ lit "`") by reflexivity.
  split; [reflexivity|]. split; [exact Hu|]. split; [reflexivity|].
  intros W respond w s Hc. cbn [run extract_components].
  destruct (respond w (ExtractRequest s)) as [c w']. cbn [fst snd] in *.
  subst c. rewrite Hu, Hj. reflexivity.
Qed.

Lemma fence_left_before_newline_witness :
  let out := fst (run scripted
                    (extract_components Flat.loads
                       (lit "Aspirin 325mg tablets"))
                    [Content (Some (fenced_reply ++ [nl]))]) in
  dict_get (lit "name") out = Some (JStr (lit "Aspirin")) /\
  dict_get (lit "strength") out = Some (JStr (lit "325mg")) /\
  dict_get (lit "formulation") out = Some (JStr (lit "tablets")).
Proof.
  cbv zeta.
  rewrite (proj2 (proj2 (proj2 (fence_left_before_newline Flat.loads
                                  eq_refl)))
             (list completion) scripted
             [Content (Some (fenced_reply ++ [nl]))]
             (lit "Aspirin 325mg tablets") eq_refl).
  vm_compute. repeat split.
Defined.

(* ===================================================================== *)
(** ** The pattern extractor and the model service *)
(* ===================================================================== *)

(** C9.  The pattern extractor is not pure: on "Fentanyl patch", a patch
    without an explicit duration, it calls the model service, against its
    docstring ("using only regex patterns"), and two runs in a row give
    different durations when the service answers "7 days" and then
    "3 days". *)
Lemma pattern_extractor_calls_model :
  let p := extract_components_regex (lit "Fentanyl patch") in
  let script := [ Content (Some (lit "7 days"));
                  Content (Some (lit "3 days")) ] in
  (forall d, p <> Ret d) /\
  fst (run scripted p script)
    <> fst (run scripted p (snd (run scripted p script))).
Proof.
  split.
  - intros d. vm_compute. discriminate.
  - vm_compute. discriminate.
Qed.

(** The three fields computed from the patterns are in the result of every
    run. *)
Lemma extract_components_regex_fields (s : str)
  (W : Type) (respond : W -> request -> completion * W) (w : W) :
  let strength := search_group0 strength_pattern s in
  let formulation := search_group0 formulation_pattern s in
  let out := fst (run respond (extract_components_regex s) w) in
  dict_get (lit "name") out
    = Some (JStr (regex_name s strength formulation)) /\
  dict_get (lit "strength") out = Some (JStr strength) /\
  dict_get (lit "formulation") out = Some (JStr formulation).
Proof.
  intros strength formulation. unfold extract_components_regex.
  fold strength formulation.
  set (result := [ (lit "name", JStr (regex_name s strength formulation));
                   (lit "strength", JStr strength);
                   (lit "formulation", JStr formulation) ]).
  assert (Hset : forall v,
    dict_get (lit "name") (dict_set (lit "duration") v result)
      = Some (JStr (regex_name s strength formulation)) /\
    dict_get (lit "strength") (dict_set (lit "duration") v result)
      = Some (JStr strength) /\
    dict_get (lit "formulation") (dict_set (lit "duration") v result)
      = Some (JStr formulation)).
  { intros v. rewrite !dict_get_set_other by reflexivity.
    repeat split. }
  destruct (is_patch s).
  - destruct (search patch_duration_pattern s) as [m|].
    + cbn [run fst]. apply Hset.
    + cbn [get_patch_duration_from_llm bind run].
      destruct (respond w (DurationRequest s)) as [c w'].
      cbn [run fst]. apply Hset.
  - cbn [run fst]. repeat split.
Qed.

(** Where the pattern extractor is pure.  The name, strength and
    formulation that the pattern extractor returns depend on the input
    string only.  When the string does
    not name a patch, or has an explicit duration, the extractor makes no
    call: it returns the same result in every run.  Otherwise it sends one
    duration request and returns. *)
Theorem pattern_extractor_pure_part (s : str) :
  let strength := search_group0 strength_pattern s in
  let formulation := search_group0 formulation_pattern s in
  (forall (W : Type) (respond : W -> request -> completion * W) (w : W),
     let out := fst (run respond (extract_components_regex s) w) in
     dict_get (lit "name") out
       = Some (JStr (regex_name s strength formulation)) /\
     dict_get (lit "strength") out = Some (JStr strength) /\
     dict_get (lit "formulation") out = Some (JStr formulation)) /\
  (asks_model s = false ->
   exists d, extract_components_regex s = Ret d /\
     forall (W : Type) (respond : W -> request -> completion * W) (w : W),
       run respond (extract_components_regex s) w = (d, w)) /\
  (asks_model s = true ->
   exists k, extract_components_regex s = Chat (DurationRequest s) k /\
     forall c, exists d, k c = Ret d).
Proof.
  intros strength formulation.
  split; [intros W respond w; apply extract_components_regex_fields|].
  unfold asks_model, extract_components_regex.
  destruct (is_patch s); cbn [andb].
  - destruct (search patch_duration_pattern s) as [m|].
    + split; [|discriminate].
      intros _. eexists. split; [reflexivity|]. reflexivity.
    + split; [discriminate|].
      intros _. cbn [get_patch_duration_from_llm bind].
      eexists. split; [reflexivity|]. intros c. eexists. reflexivity.
  - split; [|discriminate].
    intros _. eexists. split; reflexivity.
Qed.

Lemma pattern_extractor_pure_part_witness :
  asks_model (lit "Fentanyl 72 hour transdermal patch") = false /\
  exists d,
    extract_components_regex (lit "Fentanyl 72 hour transdermal patch")
      = Ret d.
Proof.
  split; [reflexivity|].
  destruct (proj1 (proj2 (pattern_extractor_pure_part
                            (lit "Fentanyl 72 hour transdermal patch")))
              eq_refl) as [d [Hd _]].
  exists d. exact Hd.
Defined.

(* ===================================================================== *)
(** ** The matcher on the patterns of the name cleanup *)
(* ===================================================================== *)

Lemma star_shape (p : ascii -> bool) (s : str) :
  forall pos g, exists tl,
    star p pos s g
      = Cursor (pos + length (takewhile p s)) (dropwhile p s) g :: tl /\
    Forall (fun c => begins p (c_rest c) = true) tl.
Proof.
  induction s as [|c s IH]; intros pos g; cbn [star takewhile dropwhile].
  - exists []. rewrite Nat.add_0_r. split; [reflexivity|constructor].
  - destruct (p c) eqn:Hc.
    + destruct (IH (S pos) g) as [tl [E Htl]]. rewrite E.
      exists (tl ++ [Cursor pos (c :: s) g]). split.
      * cbn [length app]. rewrite Nat.add_succ_r. reflexivity.
      * apply Forall_app. split; [exact Htl|].
        constructor; [exact Hc|constructor].
    + exists []. cbn [length]. rewrite Nat.add_0_r.
      split; [reflexivity|constructor].
Qed.

Lemma matches_word (w : str) :
  forall pos s g,
    matches (word false w) (Cursor pos s g) =
    if startswith w s
    then [Cursor (pos + length w) (skipn (length w) s) g]
    else [].
Proof.
  induction w as [|c w IH]; intros pos s g.
  - cbn. rewrite Nat.add_0_r. reflexivity.
  - assert (Hone : matches (chr false c) (Cursor pos s g) =
                   match s with
                   | x :: s' => if Ascii.eqb c x then [Cursor (S pos) s' g]
                                else []
                   | [] => []
                   end).
    { cbn. destruct s as [|x s']; [reflexivity|].
      rewrite (Ascii.eqb_sym x c). reflexivity. }
    destruct w as [|c' w'].
    + cbn [word]. rewrite Hone. destruct s as [|x s']; [reflexivity|].
      cbn [startswith length skipn]. rewrite andb_true_r.
      rewrite Nat.add_1_r. reflexivity.
    + change (word false (c :: c' :: w'))
        with (Cat (chr false c) (word false (c' :: w'))).
      cbn [matches]. rewrite Hone. destruct s as [|x s']; [reflexivity|].
      cbn [startswith]. destruct (Ascii.eqb c x); cbn [andb flat_map].
      * rewrite IH, app_nil_r.
        change (length (c :: c' :: w')) with (S (length (c' :: w'))).
        rewrite Nat.add_succ_r. reflexivity.
      * reflexivity.
Qed.

Lemma match_at_nil (r : regex) (adv : bool) (pos : nat) (s : str) :
  matches r (Cursor pos s []) = [] -> match_at r adv pos s = None.
Proof. unfold match_at. intros ->. reflexivity. Qed.

Lemma match_at_hd (r : regex) (adv : bool) (pos : nat) (s : str)
  (c : cursor) (tl : list cursor) :
  matches r (Cursor pos s []) = c :: tl -> pos < c_pos c ->
  match_at r adv pos s = Some c.
Proof.
  unfold match_at. intros -> H. cbn [List.find].
  replace (c_pos c =? pos) with false
    by (symmetry; apply Nat.eqb_neq; lia).
  rewrite orb_true_r. reflexivity.
Qed.

(** [\s+] at the head of [s]: the whole run of whitespace. *)
Lemma matches_ws1 (pos : nat) (s : str) (g : list (nat * (nat * nat))) :
  matches ws1 (Cursor pos s g) =
  match s with
  | c :: s' => if is_space c then star is_space (S pos) s' g else []
  | [] => []
  end.
Proof.
  unfold ws1, plus. cbn [matches c_rest c_pos c_groups].
  destruct s as [|c s']; [reflexivity|].
  destruct (is_space c); [|reflexivity].
  cbn [flat_map matches c_rest c_pos c_groups]. apply app_nil_r.
Qed.

Lemma match_at_ws1 (adv : bool) (pos : nat) (s : str) :
  match s with
  | c :: s' =>
      if is_space c
      then exists cur, match_at ws1 adv pos s = Some cur /\
                       c_rest cur = dropwhile is_space s'
      else match_at ws1 adv pos s = None
  | [] => match_at ws1 adv pos s = None
  end.
Proof.
  destruct s as [|c s'].
  - apply match_at_nil. apply matches_ws1.
  - destruct (is_space c) eqn:Hc.
    + destruct (star_shape is_space s' (S pos) []) as [tl [E _]].
      eexists. split.
      * eapply match_at_hd.
        -- rewrite matches_ws1, Hc. exact E.
        -- cbn [c_pos]. lia.
      * reflexivity.
    + apply match_at_nil. rewrite matches_ws1, Hc. reflexivity.
Qed.

(* ===================================================================== *)
(** ** Substitution as a pass *)
(* ===================================================================== *)

Section SubAsPass.

Variable r : regex.
Variable repl : str.
Variable token : str -> option str.

(** The pattern matches at the head of a text exactly where [token]
    recognises a token, and the match ends where the token ends. *)
Hypothesis token_match : forall adv pos s,
  match token s with
  | Some rest => exists cur, match_at r adv pos s = Some cur /\
                             c_rest cur = rest
  | None => match_at r adv pos s = None
  end.

Hypothesis token_shortens : forall s rest,
  token s = Some rest -> length rest < length s.

Lemma sub_loop_scan (n : nat) :
  forall f1 f2 adv pos s,
    length s <= n -> length s < f1 -> length s < f2 ->
    sub_loop f1 r repl adv pos s = Described.scan f2 token repl s.
Proof.
  induction n as [|n IH]; intros f1 f2 adv pos s Hn H1 H2;
    destruct f1 as [|f1]; try lia; destruct f2 as [|f2]; try lia;
    cbn [sub_loop Described.scan]; pose proof (token_match adv pos s) as Hm;
    destruct (token s) as [rest|] eqn:Ht.
  - apply token_shortens in Ht. lia.
  - destruct s as [|a s]; [|cbn [length] in Hn; lia].
    cbn [search_from]. rewrite Hm. reflexivity.
  - destruct Hm as [cur [Hm Hrest]]. pose proof (token_shortens Ht).
    destruct s as [|a s]; cbn [search_from]; rewrite Hm; cbn [app m_end];
      rewrite Hrest; f_equal; apply IH; cbn [length] in *; lia.
  - destruct s as [|a s]; cbn [search_from]; rewrite Hm; [reflexivity|].
    cbn [length] in *.
    rewrite <- (IH (S f1) f2 false (S pos) s) by lia.
    cbn [sub_loop].
    destruct (search_from r false (S pos) s) as [[pre m]|]; reflexivity.
Qed.

Lemma sub_as_pass (s : str) : sub r repl s = Described.pass token repl s.
Proof.
  unfold sub, Described.pass. apply (sub_loop_scan (n := length s)); lia.
Qed.

End SubAsPass.

Lemma length_dropwhile (p : ascii -> bool) (s : str) :
  length (dropwhile p s) <= length s.
Proof.
  induction s as [|c s IH]; cbn [dropwhile length]; [lia|].
  destruct (p c); cbn [length]; lia.
Qed.

Lemma length_dropwhile_begins (p : ascii -> bool) (s : str) :
  begins p s = true -> length (dropwhile p s) < length s.
Proof.
  destruct s as [|c s]; cbn [begins dropwhile length]; [discriminate|].
  intros ->. pose proof (length_dropwhile p s). lia.
Qed.

Lemma dropwhile_begins (p : ascii -> bool) (s : str) :
  begins p (dropwhile p s) = false.
Proof.
  induction s as [|c s IH]; cbn [dropwhile]; [reflexivity|].
  destruct (p c) eqn:E; [exact IH|]. cbn [begins]. exact E.
Qed.

(** *** [\s+] *)

Lemma space_run_match (adv : bool) (pos : nat) (s : str) :
  match Described.space_run s with
  | Some rest => exists cur, match_at spaces_pattern adv pos s = Some cur /\
                             c_rest cur = rest
  | None => match_at spaces_pattern adv pos s = None
  end.
Proof.
  pose proof (match_at_ws1 adv pos s) as H.
  unfold Described.space_run, spaces_pattern.
  destruct s as [|c s']; cbn [begins]; [exact H|].
  destruct (is_space c) eqn:Hc; [|exact H].
  cbn [dropwhile]. rewrite Hc. exact H.
Qed.

Lemma space_run_shortens (s rest : str) :
  Described.space_run s = Some rest -> length rest < length s.
Proof.
  unfold Described.space_run. destruct (begins is_space s) eqn:E;
    [|discriminate].
  intros [= <-]. apply length_dropwhile_begins, E.
Qed.

Lemma sub_spaces (s : str) :
  sub spaces_pattern (lit " ") s = Described.collapse_spaces s.
Proof.
  apply sub_as_pass; [apply space_run_match|apply space_run_shortens].
Qed.

(** *** [\s+sterile\s+] *)

Lemma space_not_sterile (s : str) :
  begins is_space s = true -> startswith (lit "sterile") s = false.
Proof.
  destruct s as [|x s]; [reflexivity|]. cbn [begins lit list_ascii_of_string
                                              startswith].
  intros Hx. destruct (Ascii.eqb_spec "s" x) as [<-|]; [|reflexivity].
  discriminate Hx.
Qed.

Lemma matches_cat (a b : regex) (cur : cursor) :
  matches (Cat a b) cur = flat_map (matches b) (matches a cur).
Proof. reflexivity. Qed.

Lemma matches_sterile_tail (tl : list cursor) :
  Forall (fun c => begins is_space (c_rest c) = true) tl ->
  flat_map (matches (w "sterile" +++ ws1)) tl = [].
Proof.
  induction 1 as [|[pos s g] tl Hc _ IH]; [reflexivity|].
  cbn [flat_map]. rewrite IH, app_nil_r.
  rewrite matches_cat. unfold w at 1. rewrite matches_word.
  cbn [c_rest] in Hc. rewrite (space_not_sterile _ Hc). reflexivity.
Qed.

Lemma sterile_token_match (adv : bool) (pos : nat) (s : str) :
  match Described.sterile_token s with
  | Some rest => exists cur, match_at sterile_pattern adv pos s = Some cur /\
                             c_rest cur = rest
  | None => match_at sterile_pattern adv pos s = None
  end.
Proof.
  unfold Described.sterile_token, sterile_pattern.
  destruct s as [|c s']; cbn [begins andb].
  - apply match_at_nil. rewrite matches_cat, matches_ws1. reflexivity.
  - destruct (is_space c) eqn:Hc; cbn [andb].
    2:{ apply match_at_nil. rewrite matches_cat, matches_ws1, Hc.
        reflexivity. }
    cbn [dropwhile]. rewrite Hc.
    destruct (star_shape is_space s' (S pos) []) as [tl [E Htl]].
    assert (Hm : matches (ws1 +++ w "sterile" +++ ws1)
                   (Cursor pos (c :: s') []) =
                 if startswith (lit "sterile") (dropwhile is_space s')
                 then matches ws1
                        (Cursor (S pos + length (takewhile is_space s') + 7)
                           (skipn 7 (dropwhile is_space s')) [])
                 else []).
    { rewrite matches_cat, matches_ws1, Hc, E. cbn [flat_map].
      rewrite (matches_sterile_tail Htl), app_nil_r.
      rewrite matches_cat. unfold w at 1. rewrite matches_word.
      destruct (startswith (lit "sterile") (dropwhile is_space s'));
        [|reflexivity].
      cbn [flat_map]. apply app_nil_r. }
    destruct (startswith (lit "sterile") (dropwhile is_space s'));
      cbn [andb]; [|apply match_at_nil; exact Hm].
    rewrite matches_ws1 in Hm.
    destruct (skipn 7 (dropwhile is_space s')) as [|x r2];
      cbn [begins]; [apply match_at_nil; exact Hm|].
    destruct (is_space x) eqn:Hx; [|apply match_at_nil; exact Hm].
    destruct (star_shape is_space r2
                (S (S pos + length (takewhile is_space s') + 7)) [])
      as [tl' [E' _]].
    rewrite E' in Hm. eexists. split.
    + eapply match_at_hd; [exact Hm|]. cbn [c_pos].
      assert (Hlt : forall a b, pos < S (S pos + a + 7) + b)
        by (intros; lia).
      apply Hlt.
    + cbn [c_rest dropwhile]. rewrite Hx. reflexivity.
Qed.

Lemma length_skipn_le (n : nat) (s : str) : length (skipn n s) <= length s.
Proof. rewrite length_skipn. lia. Qed.

Lemma sterile_token_shortens (s rest : str) :
  Described.sterile_token s = Some rest -> length rest < length s.
Proof.
  unfold Described.sterile_token.
  pose proof (length_skipn_le 7 (dropwhile is_space s)) as Hskip.
  set (after_word := skipn 7 (dropwhile is_space s)) in *.
  destruct (begins is_space s) eqn:E; cbn [andb]; [|discriminate].
  destruct (startswith _ _ && _); [|discriminate].
  intros [= <-]. pose proof (length_dropwhile_begins _ _ E).
  pose proof (length_dropwhile is_space after_word). lia.
Qed.

Lemma sub_sterile (s : str) :
  sub sterile_pattern (lit " ") s = Described.collapse_sterile s.
Proof.
  apply sub_as_pass; [apply sterile_token_match|apply sterile_token_shortens].
Qed.

(** *** [^Generic\s+] *)

Lemma generic_no_match_later (adv : bool) (pos : nat) (s : str) :
  match_at generic_pattern adv (S pos) s = None.
Proof. apply match_at_nil. reflexivity. Qed.

Lemma generic_search_later (s : str) :
  forall adv pos, search_from generic_pattern adv (S pos) s = None.
Proof.
  induction s as [|a s IH]; intros adv pos; cbn [search_from];
    rewrite generic_no_match_later; [reflexivity|].
  rewrite IH. reflexivity.
Qed.

Lemma generic_match_start (adv : bool) (s : str) :
  if startswith (lit "Generic") s && begins is_space (skipn 7 s)
  then exists cur, match_at generic_pattern adv 0 s = Some cur /\
                   0 < c_pos cur /\
                   c_rest cur = dropwhile is_space (skipn 7 s)
  else match_at generic_pattern adv 0 s = None.
Proof.
  assert (Hm : matches generic_pattern (Cursor 0 s []) =
               if startswith (lit "Generic") s
               then matches ws1 (Cursor 7 (skipn 7 s) [])
               else []).
  { unfold generic_pattern. rewrite matches_cat.
    change (matches Bol (Cursor 0 s [])) with [Cursor 0 s []].
    cbn [flat_map]. rewrite app_nil_r, matches_cat.
    unfold w. rewrite matches_word.
    destruct (startswith (lit "Generic") s); [|reflexivity].
    cbn [flat_map]. apply app_nil_r. }
  destruct (startswith (lit "Generic") s); cbn [andb];
    [|apply match_at_nil; exact Hm].
  rewrite matches_ws1 in Hm.
  destruct (skipn 7 s) as [|x r2]; cbn [begins];
    [apply match_at_nil; exact Hm|].
  destruct (is_space x) eqn:Hx; [|apply match_at_nil; exact Hm].
  destruct (star_shape is_space r2 8 []) as [tl [E _]].
  rewrite E in Hm. eexists. split; [|split].
  - eapply match_at_hd; [exact Hm|]. cbn [c_pos]. lia.
  - cbn [c_pos]. lia.
  - cbn [c_rest dropwhile]. rewrite Hx. reflexivity.
Qed.

Lemma sub_generic (s : str) :
  sub generic_pattern [] s = Described.strip_generic s.
Proof.
  unfold sub, Described.strip_generic.
  replace (2 * length s + 2) with (S (2 * length s + 1)) by lia.
  cbn [sub_loop]. pose proof (generic_match_start false s) as H.
  destruct (startswith (lit "Generic") s && begins is_space (skipn 7 s)).
  - destruct H as [cur [Hm [Hpos Hrest]]].
    destruct s as [|a s']; cbn [search_from]; rewrite Hm;
      cbn [app m_end m_start]; rewrite Hrest;
      destruct (c_pos cur) as [|p]; try lia;
      destruct (2 * _ + 1); cbn [sub_loop]; try reflexivity;
      rewrite generic_search_later; reflexivity.
  - destruct s as [|a s']; cbn [search_from]; rewrite H; [reflexivity|].
    rewrite generic_search_later. reflexivity.
Qed.

(** *** [str.replace] *)

Lemma find_unfold (old s : str) :
  PyStr.find old s =
  if startswith old s then Some ([], skipn (length old) s)
  else match s with
       | [] => None
       | c :: s' =>
           match PyStr.find old s' with
           | Some (pre, post) => Some (c :: pre, post)
           | None => None
           end
       end.
Proof. destruct s; reflexivity. Qed.

Lemma startswith_length (p s : str) :
  startswith p s = true -> length p <= length s.
Proof.
  revert s. induction p as [|x p IH]; intros [|y s]; cbn [startswith length];
    try lia; try discriminate.
  intros H. apply andb_true_iff in H as [_ H]. apply IH in H. lia.
Qed.

Lemma occurrence_shortens (o : ascii) (old s rest : str) :
  Described.occurrence (o :: old) s = Some rest -> length rest < length s.
Proof.
  unfold Described.occurrence.
  destruct (startswith (o :: old) s) eqn:E; [|discriminate].
  intros H. assert (Hr : rest = skipn (length (o :: old)) s) by congruence.
  apply startswith_length in E. rewrite Hr, length_skipn.
  cbn [length] in *. lia.
Qed.

Lemma replace_loop_scan (o : ascii) (old new : str) (n : nat) :
  forall f1 f2 s,
    length s <= n -> length s < f1 -> length s < f2 ->
    replace_loop f1 (o :: old) new s
      = Described.scan f2 (Described.occurrence (o :: old)) new s.
Proof.
  induction n as [|n IH]; intros f1 f2 s Hn H1 H2;
    destruct f1 as [|f1]; try lia; destruct f2 as [|f2]; try lia;
    cbn [replace_loop Described.scan]; rewrite find_unfold;
    pose proof (@occurrence_shortens o old s) as Hs;
    unfold Described.occurrence in *;
    destruct (startswith (o :: old) s) eqn:E.
  - specialize (Hs _ eq_refl). lia.
  - destruct s as [|a s]; [reflexivity|cbn [length] in Hn; lia].
  - specialize (Hs _ eq_refl). cbn [app]. f_equal. apply IH; lia.
  - destruct s as [|a s]; [reflexivity|]. cbn [length] in *.
    rewrite <- (IH (S f1) f2 s) by lia. cbn [replace_loop].
    destruct (PyStr.find (o :: old) s) as [[pre post]|]; reflexivity.
Qed.

Lemma replace_remove_every (o : ascii) (old s : str) :
  replace (o :: old) [] s = Described.remove_every (o :: old) s.
Proof.
  unfold replace, Described.remove_every, Described.pass.
  apply (replace_loop_scan o old [] (n := length s)); lia.
Qed.

(* ===================================================================== *)
(** ** The name derivation *)
(* ===================================================================== *)

Lemma regex_name_described (raw strength formulation : str) :
  regex_name raw strength formulation =
  Described.name_by Described.remove_every raw strength formulation.
Proof.
  unfold regex_name, Described.name_by.
  rewrite sub_spaces, sub_sterile, sub_generic.
  destruct strength as [|a st]; destruct formulation as [|b fm];
    rewrite ?replace_remove_every; reflexivity.
Qed.

(** C1, as stated, fails: every occurrence of the strength is removed, not
    the first one only.  For "Ibuprofen 200mg / Paracetamol 200mg tablets"
    the name is "Ibuprofen / Paracetamol"; removing the first occurrence
    would leave "Ibuprofen / Paracetamol 200mg". *)
Lemma name_removes_every_occurrence :
  let raw := lit "Ibuprofen 200mg / Paracetamol 200mg tablets" in
  let strength := search_group0 strength_pattern raw in
  let formulation := search_group0 formulation_pattern raw in
  strength = lit "200mg" /\
  regex_name raw strength formulation = lit "Ibuprofen / Paracetamol" /\
  Described.name_by Described.remove_first raw strength formulation
    = lit "Ibuprofen / Paracetamol 200mg" /\
  regex_name raw strength formulation
    <> Described.name_by Described.remove_first raw strength formulation.
Proof. vm_compute. repeat split. discriminate. Qed.

(** C1, amended.  For every input the name that the pattern extractor
    returns is obtained from the raw string by removing every literal
    occurrence of the matched strength (if any), then every literal
    occurrence of the matched formulation (if any), then a leading "Generic"
    with its whitespace, then replacing each whitespace-delimited "sterile"
    by one space, each run of whitespace by one space, trimming whitespace
    at both ends, and trimming trailing spaces, hyphens, commas and periods.
    On "Generic Aspirin 325mg tablets" it returns name "Aspirin", strength
    "325mg", formulation "tablets", without a call to the model. *)
Theorem name_derivation :
  (forall (raw : str) (W : Type)
          (respond : W -> request -> completion * W) (w : W),
     dict_get (lit "name")
       (fst (run respond (extract_components_regex raw) w))
     = Some (JStr (Described.name_by Described.remove_every raw
                     (search_group0 strength_pattern raw)
                     (search_group0 formulation_pattern raw)))) /\
  extract_components_regex (lit "Generic Aspirin 325mg tablets")
  = Ret [ (lit "name", JStr (lit "Aspirin"));
          (lit "strength", JStr (lit "325mg"));
          (lit "formulation", JStr (lit "tablets")) ].
Proof.
  split.
  - intros raw W respond w.
    rewrite (proj1 (extract_components_regex_fields raw respond w)).
    rewrite regex_name_described. reflexivity.
  - vm_compute. reflexivity.
Qed.

(* ===================================================================== *)
(** ** The shape of the name *)
(* ===================================================================== *)



Lemma begins_app (p : ascii -> bool) (a b : str) :
  begins p a = true -> begins p (a ++ b) = true.
Proof. destruct a; [discriminate|]. intros H. exact H. Qed.





Lemma takewhile_dropwhile (p : ascii -> bool) (s : str) :
  takewhile p s ++ dropwhile p s = s.
Proof.
  induction s as [|c s IH]; [reflexivity|]. cbn [takewhile dropwhile].
  destruct (p c); [|reflexivity]. cbn [app]. rewrite IH. reflexivity.
Qed.

(** What [rstrip] removes is a suffix. *)
Lemma rstrip_by_prefix (p : ascii -> bool) (s : str) :
  s = rstrip_by p s ++ rev (takewhile p (rev s)).
Proof.
  unfold rstrip_by. rewrite <- rev_app_distr, takewhile_dropwhile.
  symmetry. apply rev_involutive.
Qed.

Lemma rstrip_by_end (p : ascii -> bool) (s : str) :
  begins p (rev (rstrip_by p s)) = false.
Proof. unfold rstrip_by. rewrite rev_involutive. apply dropwhile_begins. Qed.





(* ===================================================================== *)
(** ** A pass is not repeated *)
(* ===================================================================== *)

Section PassFixed.

Variable token : str -> option str.
Variable repl : str.

Hypothesis token_strict : forall s rest,
  token s = Some rest -> length repl + length rest < length s.

Lemma length_scan (f : nat) :
  forall s, length (Described.scan f token repl s) <= length s.
Proof.
  induction f as [|f IH]; intros s; cbn [Described.scan]; [lia|].
  destruct (token s) as [rest|] eqn:E.
  - apply token_strict in E. rewrite length_app.
    pose proof (IH rest). lia.
  - destruct s as [|c s]; cbn [length]; [lia|].
    pose proof (IH s). lia.
Qed.

Lemma has_token_unfold (s : str) :
  Described.has_token token s =
  match token s with
  | Some _ => true
  | None =>
      match s with
      | [] => false
      | _ :: s' => Described.has_token token s'
      end
  end.
Proof. destruct s; reflexivity. Qed.

(** A pass leaves a text as it is exactly when no token starts in it. *)
Lemma scan_fixed_iff (f : nat) :
  forall s, length s < f ->
    (Described.scan f token repl s = s <->
     Described.has_token token s = false).
Proof.
  induction f as [|f IH]; intros s Hf; [lia|].
  cbn [Described.scan]. rewrite has_token_unfold.
  destruct (token s) as [rest|] eqn:E.
  - split; [|discriminate]. intros H. apply token_strict in E.
    apply (f_equal (@length ascii)) in H. rewrite length_app in H.
    pose proof (length_scan f rest). lia.
  - destruct s as [|c s]; [split; reflexivity|]. cbn [length] in Hf.
    rewrite <- (IH s) by lia. split; [intros [= H]; exact H|].
    intros ->. reflexivity.
Qed.

End PassFixed.

Lemma has_token_occurrence (old s : str) :
  Described.has_token (Described.occurrence old) s = contains old s.
Proof.
  induction s as [|c s IH]; rewrite has_token_unfold;
    unfold Described.occurrence; cbn [contains];
    destruct (startswith old _); cbn [orb]; auto.
Qed.

Lemma replace_fixed_iff (old x : str) :
  old <> [] ->
  (contains old x = false <-> replace old [] x = x).
Proof.
  destruct old as [|o old]; [congruence|]. intros _.
  rewrite replace_remove_every, <- has_token_occurrence.
  unfold Described.remove_every, Described.pass. symmetry.
  apply scan_fixed_iff; [|lia].
  intros s rest H. apply occurrence_shortens in H. cbn [length]. lia.
Qed.

Lemma sterile_token_strict (s rest : str) :
  Described.sterile_token s = Some rest ->
  length (lit " ") + length rest < length s.
Proof.
  unfold Described.sterile_token.
  pose proof (length_skipn 7 (dropwhile is_space s)) as Hskip.
  set (after_word := skipn 7 (dropwhile is_space s)) in *.
  destruct (begins is_space s) eqn:E; cbn [andb]; [|discriminate].
  destruct (startswith _ _) eqn:Es; cbn [andb]; [|discriminate].
  destruct (begins is_space after_word) eqn:Ea; [|discriminate].
  intros [= <-]. apply startswith_length in Es.
  pose proof (length_dropwhile_begins _ _ E).
  pose proof (length_dropwhile_begins _ _ Ea).
  change (length (lit "sterile")) with 7 in Es.
  change (length (lit " ")) with 1. lia.
Qed.

Lemma sterile_fixed_iff (x : str) :
  Described.has_token Described.sterile_token x = false <->
  sub sterile_pattern (lit " ") x = x.
Proof.
  rewrite sub_sterile. unfold Described.collapse_sterile, Described.pass.
  symmetry. apply scan_fixed_iff; [apply sterile_token_strict|lia].
Qed.

Lemma startswith_app (a b s : str) :
  startswith (a ++ b) s = startswith a s && startswith b (skipn (length a) s).
Proof.
  revert s. induction a as [|x a IH]; intros s; [reflexivity|].
  destruct s as [|y s]; cbn [app startswith length skipn].
  - destruct b; reflexivity.
  - rewrite IH, andb_assoc. reflexivity.
Qed.

Lemma only_blanks_skipn (n : nat) (s : str) :
  only_blanks s = true -> only_blanks (skipn n s) = true.
Proof.
  revert s. induction n as [|n IH]; intros [|c s]; cbn [skipn]; auto.
  intros H. apply IH. cbn [only_blanks forallb] in H.
  apply andb_true_iff in H. apply H.
Qed.

Lemma startswith_blank (s : str) :
  only_blanks s = true -> startswith (lit " ") s = begins is_space s.
Proof.
  destruct s as [|c s]; [reflexivity|].
  cbn [only_blanks forallb lit list_ascii_of_string startswith begins].
  intros H. apply andb_true_iff in H as [H _]. rewrite andb_true_r.
  rewrite Ascii.eqb_sym. destruct (Ascii.eqb_spec c " ") as [->|_].
  - reflexivity.
  - destruct (is_space c); [discriminate|reflexivity].
Qed.

Lemma generic_fixed_iff (x : str) :
  only_blanks x = true ->
  (startswith (lit "Generic ") x = false <->
   sub generic_pattern [] x = x).
Proof.
  intros Hx. rewrite sub_generic. unfold Described.strip_generic.
  change (lit "Generic ") with (lit "Generic" ++ lit " ").
  rewrite startswith_app.
  change (length (lit "Generic")) with 7.
  rewrite (startswith_blank _ (only_blanks_skipn 7 _ Hx)).
  destruct (startswith (lit "Generic") x) eqn:Es; cbn [andb];
    [|split; reflexivity].
  destruct (begins is_space (skipn 7 x)) eqn:Eb; [|split; reflexivity].
  split; [discriminate|]. intros H.
  apply (f_equal (@length ascii)) in H.
  pose proof (length_dropwhile is_space (skipn 7 x)).
  apply startswith_length in Es. change (length (lit "Generic")) with 7 in Es.
  rewrite length_skipn in *. lia.
Qed.


(* ===================================================================== *)
(** ** The batch *)
(* ===================================================================== *)

Lemma get_truthy_present (k : str) (d : dict) :
  get_truthy k d = true -> dict_get k d <> None.
Proof. unfold get_truthy. destruct (dict_get k d); congruence. Qed.

Lemma fill_present (k : str) (pattern : regex) (s : str) (d : dict) :
  dict_get k (fill k pattern s d) <> None.
Proof.
  unfold fill. destruct (get_truthy k d) eqn:E.
  - apply get_truthy_present, E.
  - rewrite dict_get_set_same. discriminate.
Qed.

(** Whatever the service and the decoder do, the result of
    [extract_components] has a strength and a formulation. *)
Lemma extract_components_validated (json_loads : str -> option json)
  (W : Type) (respond : W -> request -> completion * W) (w : W) (s : str) :
  let out := fst (run respond (extract_components json_loads s) w) in
  dict_get (lit "strength") out <> None /\
  dict_get (lit "formulation") out <> None.
Proof.
  assert (Hrx : forall w',
    let out := fst (run respond (extract_components_regex s) w') in
    dict_get (lit "strength") out <> None /\
    dict_get (lit "formulation") out <> None).
  { intros w'.
    destruct (extract_components_regex_fields s respond w')
      as [_ [H1 H2]].
    cbn zeta. rewrite H1, H2. split; discriminate. }
  destruct (respond w (ExtractRequest s)) as [c w'] eqn:Ec.
  assert (Hc : fst (respond w (ExtractRequest s)) = c)
    by (rewrite Ec; reflexivity).
  destruct c as [|[text|]];
    try (cbn [run extract_components]; rewrite Ec; apply Hrx).
  destruct (json_loads (unfenced text)) as [[| | | | | |d]|] eqn:Ed;
    try (cbn [run extract_components]; rewrite Ec, Ed; apply Hrx).
  cbn zeta.
  rewrite !(extract_components_object_get json_loads respond w s _ Hc Ed)
    by reflexivity.
  split; [|apply fill_present].
  rewrite dict_get_fill_other by reflexivity. apply fill_present.
Qed.

(** The item built from components that have a name. *)
Lemma processed_medicine_item (m : medicine) (components : dict) :
  dict_get (lit "strength") components <> None ->
  dict_get (lit "formulation") components <> None ->
  match processed_medicine m components with
  | Ok item => item_of m item /\
               dict_get (lit "name") item
                 = dict_get (lit "name") components /\
               dict_get (lit "strength") item
                 = dict_get (lit "strength") components /\
               dict_get (lit "formulation") item
                 = dict_get (lit "formulation") components
  | Raise e => e = KeyError (lit "name") /\
               dict_get (lit "name") components = None
  end.
Proof.
  intros Hs Hf. unfold processed_medicine, lookup.
  destruct (dict_get (lit "name") components) as [name|];
    [|split; reflexivity].
  destruct (dict_get (lit "strength") components) as [strength|];
    [|congruence].
  destruct (dict_get (lit "formulation") components) as [formulation|];
    [|congruence].
  unfold item_of. destruct (is_patch (NM m)).
  - rewrite !dict_get_set_other by reflexivity.
    rewrite dict_get_set_same. repeat split; try reflexivity.
    discriminate.
  - repeat split; try reflexivity; cbn; congruence.
Qed.

Lemma process_loop_shape (json_loads : str -> option json)
  (W : Type) (respond : W -> request -> completion * W)
  (medicines : list medicine) :
  forall (w : W) (done : list medicine) (acc : list dict),
    Forall2 item_of done acc ->
    match fst (run respond (process_loop json_loads medicines acc) w) with
    | Ok out => Forall2 item_of (done ++ medicines) out
    | Raise e => e = KeyError (lit "name")
    end.
Proof.
  induction medicines as [|m medicines IH]; intros w done acc Hacc.
  - cbn [process_loop run fst]. rewrite app_nil_r. exact Hacc.
  - cbn [process_loop]. rewrite run_bind.
    destruct (extract_components_validated json_loads respond w (NM m))
      as [Hs Hf].
    pose proof (processed_medicine_item m _ Hs Hf) as Hitem.
    destruct (processed_medicine m _) as [item|e].
    + specialize (IH (snd (run respond
                             (extract_components json_loads (NM m)) w))
                     (done ++ [m]) (acc ++ [item])).
      rewrite <- app_assoc in IH. apply IH.
      apply Forall2_app; [exact Hacc|].
      constructor; [apply Hitem|constructor].
    + cbn [run fst]. apply Hitem.
Qed.

(** X7.  Whatever the service and the decoder do, [process_medicine_list]
    either raises [KeyError] for the key "name" or returns one item for
    each input item, in the same order, with its identifier, its raw name,
    and a duration exactly for the patches. *)
Lemma process_medicine_list_shape (json_loads : str -> option json)
  (W : Type) (respond : W -> request -> completion * W) (w : W)
  (medicines : list medicine) :
  match fst (run respond (process_medicine_list json_loads medicines) w)
  with
  | Ok out => Forall2 item_of medicines out
  | Raise e => e = KeyError (lit "name")
  end.
Proof.
  exact (process_loop_shape json_loads respond medicines w (done := [])
           (Forall2_nil _)).
Qed.

(** A batch of three whose second call raises: three items come back, the
    second with the fields of the pattern extractor. *)
Lemma batch_continues_after_failure :
  let script := [ Content (Some fenced_reply); Raised; Raised;
                  Content (Some fenced_reply) ] in
  exists i1 i2 i3,
    fst (run scripted (process_medicine_list Flat.loads three_medicines)
           script) = Ok [i1; i2; i3] /\
    i2 = [ (lit "VPID", JStr (lit "102"));
           (lit "original_name", JStr (lit "Fentanyl patch"));
           (lit "name", JStr (lit "Fentanyl patch"));
           (lit "strength", JStr []);
           (lit "formulation", JStr []);
           (lit "duration", JStr []) ] /\
    fst (run scripted (extract_components_regex (lit "Fentanyl patch"))
           [Raised])
      = [ (lit "name", JStr (lit "Fentanyl patch"));
          (lit "strength", JStr []);
          (lit "formulation", JStr []);
          (lit "duration", JStr []) ].
Proof. vm_compute. do 3 eexists. repeat split. Qed.

(* ===================================================================== *)
(** ** The tiers of the patch duration *)
(* ===================================================================== *)

Lemma star_elements (p : ascii -> bool) (s : str) :
  forall pos g c, In c (star p pos s g) ->
    exists k, c = Cursor (pos + k) (skipn k s) g /\
              forallb p (firstn k s) = true /\ k <= length s.
Proof.
  induction s as [|a s IH]; intros pos g c; cbn [star].
  - intros [<-|[]]. exists 0. rewrite Nat.add_0_r. repeat split. lia.
  - destruct (p a) eqn:Ha.
    + intros H. apply in_app_or in H as [H|[<-|[]]].
      * destruct (IH _ _ _ H) as [k [-> [Hk Hl]]]. exists (S k).
        rewrite Nat.add_succ_r. cbn [skipn firstn forallb length].
        rewrite Ha, Hk. repeat split. lia.
      * exists 0. rewrite Nat.add_0_r. repeat split. lia.
    + intros [<-|[]]. exists 0. rewrite Nat.add_0_r. repeat split. lia.
Qed.

Lemma matches_group_free (r : regex) :
  group_free r = true ->
  forall cur c, In c (matches r cur) -> c_groups c = c_groups cur.
Proof.
  induction r as [| |p|a IHa b IHb|a IHa b IHb|a IHa|p|n a IHa];
    cbn [group_free]; intros Hg cur c; cbn [matches].
  - intros [<-|[]]. reflexivity.
  - destruct (c_pos cur =? 0); [|intros []].
    intros [<-|[]]. reflexivity.
  - destruct (c_rest cur) as [|x s']; [intros []|].
    destruct (p x); [|intros []]. intros [<-|[]]. reflexivity.
  - apply andb_true_iff in Hg as [Ha Hb]. intros H.
    apply in_flat_map in H as [x [Hx Hc]].
    rewrite (IHb Hb _ _ Hc). apply (IHa Ha _ _ Hx).
  - apply andb_true_iff in Hg as [Ha Hb]. intros H.
    apply in_app_or in H as [H|H]; [apply (IHa Ha _ _ H)|].
    apply (IHb Hb _ _ H).
  - intros H. apply in_app_or in H as [H|[<-|[]]]; [|reflexivity].
    apply (IHa Hg _ _ H).
  - intros H. destruct (star_elements _ _ _ _ _ H) as [k [-> _]].
    reflexivity.
  - discriminate.
Qed.

(** The number captured by the pattern of [clean_duration]: a non-empty
    run of digits at the start of the text. *)
Lemma clean_duration_number (d : str) (m : mobj) :
  re_match clean_duration_pattern d = Some m ->
  exists a n, group d 1 m = Some (a :: n) /\
              forallb is_digit (a :: n) = true.
Proof.
  unfold re_match, match_at. intros H.
  destruct (List.find _ _) as [c|] eqn:Ef; [|discriminate].
  injection H as <-. apply find_some in Ef as [Hin _].
  unfold clean_duration_pattern in Hin. rewrite matches_cat in Hin.
  apply in_flat_map in Hin as [x [Hx Hc]].
  apply matches_group_free in Hc; [|reflexivity].
  cbn [matches] in Hx. apply in_map_iff in Hx as [y [<- Hy]].
  unfold plus in Hy. rewrite matches_cat in Hy.
  apply in_flat_map in Hy as [z [Hz Hy]].
  cbn [matches c_rest c_pos c_groups] in Hz.
  destruct d as [|a d']; [destruct Hz|].
  destruct (is_digit a) eqn:Ha; [|destruct Hz].
  destruct Hz as [<-|[]]. cbn [matches c_rest c_pos c_groups] in Hy.
  destruct (star_elements _ _ _ _ _ Hy) as [k [-> [Hk _]]].
  exists a, (firstn k d'). unfold group. cbn [m_end].
  rewrite Hc. cbn [c_groups span_of c_pos Nat.eqb option_map fst snd].
  unfold substr. cbn [skipn Nat.sub firstn Nat.add forallb].
  rewrite Ha, Hk. split; reflexivity.
Qed.

Lemma takewhile_app (p : ascii -> bool) (n u : str) :
  forallb p n = true -> begins p u = false ->
  takewhile p (n ++ u) = n.
Proof.
  intros Hn Hu. induction n as [|a n IH]; cbn [app].
  - destruct u as [|b u]; [reflexivity|]. cbn [begins] in Hu.
    cbn [takewhile]. rewrite Hu. reflexivity.
  - cbn [forallb] in Hn. apply andb_true_iff in Hn as [Ha Hn].
    cbn [takewhile]. rewrite Ha, (IH Hn). reflexivity.
Qed.

Lemma is_canonical_number (a : ascii) (n u : str) :
  forallb is_digit (a :: n) = true ->
  u = lit " days" \/ u = lit " hours" ->
  is_canonical ((a :: n) ++ u) = true.
Proof.
  intros Hd Hu. unfold is_canonical.
  change ((a :: n) ++ u) with (a :: (n ++ u)).
  cbv iota beta. change (a :: (n ++ u)) with ((a :: n) ++ u).
  rewrite (takewhile_app is_digit (a :: n) u Hd)
    by (destruct Hu as [-> | ->]; reflexivity).
  rewrite skipn_app, skipn_all, Nat.sub_diag. cbn [app skipn].
  destruct Hu as [-> | ->]; reflexivity.
Qed.

(** What [clean_duration] returns is canonical, for every input. *)
Lemma clean_duration_canonical (duration : str) :
  is_canonical (clean_duration duration) = true.
Proof.
  unfold clean_duration. destruct duration as [|c duration'];
    [reflexivity|].
  set (d := strip (lower (c :: duration'))).
  destruct (re_match clean_duration_pattern d) as [m|] eqn:Em;
    [|reflexivity].
  destruct (clean_duration_number _ Em) as [a [n [Hg Hd]]].
  rewrite Hg. cbn [format_group].
  destruct (contains (lit "hour") d || contains (lit "hr") d);
    apply is_canonical_number; auto.
Qed.

Lemma duration_of_completion_canonical (c : completion) :
  is_canonical (duration_of_completion c) = true.
Proof.
  destruct c as [|[content|]]; try reflexivity.
  unfold duration_of_completion.
  destruct (PyStr.eqb _ _); [reflexivity|apply clean_duration_canonical].
Qed.

(** X10.  The cascade: for a string that names a patch and a response that
    decodes to an object, the duration is the explicit one, normalized; if
    there is none, the one of the response, as it is; if there is none, the
    answer to the duration request, normalized. *)
Lemma patch_duration_cascade (json_loads : str -> option json)
  (W : Type) (respond : W -> request -> completion * W) (w : W)
  (s text : str) (d : dict) :
  fst (respond w (ExtractRequest s)) = Content (Some text) ->
  json_loads (unfenced text) = Some (JObj d) ->
  is_patch s = true ->
  dict_get (lit "duration")
    (fst (run respond (extract_components json_loads s) w)) =
  match search patch_duration_pattern s with
  | Some explicit_duration =>
      Some (JStr (clean_duration (group0 s explicit_duration)))
  | None =>
      if get_truthy (lit "duration") d then dict_get (lit "duration") d
      else Some (JStr (duration_of_completion
                         (fst (respond (snd (respond w (ExtractRequest s)))
                                 (DurationRequest s)))))
  end.
Proof.
  intros Hc Hd Hp. cbn [run extract_components].
  destruct (respond w (ExtractRequest s)) as [c w']. cbn [fst snd] in *.
  subst c. rewrite Hd, Hp.
  set (validated := fill (lit "formulation") formulation_pattern s
                      (fill (lit "strength") strength_pattern s d)).
  assert (Hv : dict_get (lit "duration") validated
               = dict_get (lit "duration") d).
  { unfold validated. rewrite !dict_get_fill_other by reflexivity.
    reflexivity. }
  destruct (search patch_duration_pattern s) as [m|].
  - cbn [run fst]. apply dict_get_set_same.
  - unfold get_truthy at 1. rewrite Hv. fold (get_truthy (lit "duration") d).
    destruct (get_truthy (lit "duration") d).
    + cbn [run fst]. exact Hv.
    + cbn [get_patch_duration_from_llm bind run].
      destruct (respond w' (DurationRequest s)) as [c' w''].
      cbn [run fst]. apply dict_get_set_same.
Qed.

(* ===================================================================== *)
(** ** A match is a piece of the subject *)
(* ===================================================================== *)

(** The matcher moves forward: each success is reached by consuming a
    prefix of the text that was left. *)
Lemma matches_consumes (r : regex) :
  forall cur c, In c (matches r cur) ->
    exists t, c_rest cur = t ++ c_rest c /\
              c_pos c = c_pos cur + length t.
Proof.
  assert (Hrefl : forall cur : cursor,
    exists t, c_rest cur = t ++ c_rest cur /\
              c_pos cur = c_pos cur + length t).
  { intros cur. exists []. rewrite Nat.add_0_r. split; reflexivity. }
  induction r as [| |p|a IHa b IHb|a IHa b IHb|a IHa|p|n a IHa];
    intros cur c; cbn [matches].
  - intros [<-|[]]. apply Hrefl.
  - destruct (c_pos cur =? 0); [|intros []]. intros [<-|[]]. apply Hrefl.
  - destruct (c_rest cur) as [|x s'] eqn:E; [intros []|].
    destruct (p x); [|intros []]. intros [<-|[]]. exists [x].
    cbn [c_rest c_pos app length]. rewrite Nat.add_1_r.
    split; reflexivity.
  - intros H. apply in_flat_map in H as [x [Hx Hc]].
    destruct (IHa _ _ Hx) as [t1 [E1 P1]].
    destruct (IHb _ _ Hc) as [t2 [E2 P2]].
    exists (t1 ++ t2). rewrite <- app_assoc, <- E2, length_app.
    split; [exact E1|lia].
  - intros H. apply in_app_or in H as [H|H]; [apply (IHa _ _ H)|].
    apply (IHb _ _ H).
  - intros H. apply in_app_or in H as [H|[<-|[]]]; [|apply Hrefl].
    apply (IHa _ _ H).
  - intros H. destruct (star_elements _ _ _ _ _ H) as [k [-> [_ Hle]]].
    exists (firstn k (c_rest cur)). cbn [c_rest c_pos].
    rewrite firstn_skipn. split; [reflexivity|].
    rewrite length_firstn. lia.
  - intros H. apply in_map_iff in H as [y [<- Hy]].
    cbn [c_rest c_pos]. apply (IHa _ _ Hy).
Qed.

Lemma search_from_piece (r : regex) (s : str) :
  forall adv pos pre m,
    search_from r adv pos s = Some (pre, m) ->
    exists t, s = pre ++ t ++ c_rest (m_end m) /\
              m_start m = pos + length pre /\
              c_pos (m_end m) = m_start m + length t.
Proof.
  induction s as [|a s IH]; intros adv pos pre m; cbn [search_from];
    destruct (match_at r adv pos _) as [c|] eqn:Em.
  1,3: intros [= <- <-]; unfold match_at in Em;
       apply find_some in Em as [Hin _];
       destruct (matches_consumes _ _ _ Hin) as [t [E P]];
       cbn [c_rest c_pos] in E, P; exists t; cbn [app length m_end m_start];
       rewrite Nat.add_0_r; auto.
  - discriminate.
  - destruct (search_from r false (S pos) s) as [[pre' m']|] eqn:Es;
      [|discriminate].
    intros [= <- <-]. destruct (IH _ _ _ _ Es) as [t [E [P1 P2]]].
    exists t. cbn [app length]. rewrite <- E. split; [reflexivity|].
    split; [lia|exact P2].
Qed.

(** What a search reports is a piece of the subject, letter for letter. *)
Lemma search_group0_verbatim (pattern : regex) (s : str) :
  exists pre post, s = pre ++ search_group0 pattern s ++ post.
Proof.
  unfold search_group0, search.
  destruct (search_from pattern false 0 s) as [[pre m]|] eqn:Es;
    cbn [option_map snd].
  - destruct (search_from_piece _ _ _ _ Es) as [t [E [P1 P2]]].
    exists pre, (c_rest (m_end m)). unfold group0, substr.
    rewrite P2, P1. cbn [Nat.add].
    replace (length pre + length t - length pre) with (length t) by lia.
    rewrite E at 2. rewrite skipn_app, skipn_all, Nat.sub_diag.
    cbn [skipn app]. rewrite firstn_app, firstn_all, Nat.sub_diag.
    cbn [firstn]. rewrite app_nil_r. exact E.
  - exists [], s. reflexivity.
Qed.

(** A search reports the leftmost match: the pattern matches at no offset
    before the start of the match. *)
Lemma search_from_leftmost (r : regex) (s : str) :
  forall pos pre m,
    search_from r false pos s = Some (pre, m) ->
    forall k, k < length pre ->
      match_at r false (pos + k) (skipn k s) = None.
Proof.
  induction s as [|a s IH]; intros pos pre m; cbn [search_from];
    destruct (match_at r false pos _) as [c|] eqn:Em.
  - intros [= <- <-] k Hk. cbn [length] in Hk. lia.
  - discriminate.
  - intros [= <- <-] k Hk. cbn [length] in Hk. lia.
  - destruct (search_from r false (S pos) s) as [[pre' m']|] eqn:Es;
      [|discriminate].
    intros [= <- <-] [|k] Hk.
    + rewrite Nat.add_0_r. exact Em.
    + cbn [length] in Hk. cbn [skipn]. rewrite Nat.add_succ_r.
      apply (IH (S pos) pre' m' Es k). lia.
Qed.

(** The strength pattern at work: the ratio form, the bare form, letters
    in upper case kept as they are, the leftmost of two strengths. *)
Lemma strength_pattern_examples :
  search_group0 strength_pattern (lit "Morphine 5 mg/ml injection")
    = lit "5 mg/ml" /\
  search_group0 strength_pattern (lit "Aspirin 325mg tablets")
    = lit "325mg" /\
  search_group0 strength_pattern (lit "PARACETAMOL 500MG TABLETS")
    = lit "500MG" /\
  search_group0 strength_pattern (lit "Aspirin 75mg or 300mg tablets")
    = lit "75mg".
Proof. vm_compute. repeat split. Qed.

(* ===================================================================== *)
(** ** The duration normalizer without its pattern *)
(* ===================================================================== *)

Lemma match_at_first (r : regex) (pos : nat) (s : str) :
  match_at r false pos s = hd_error (matches r (Cursor pos s [])).
Proof.
  unfold match_at. destruct (matches r (Cursor pos s [])); reflexivity.
Qed.

Lemma matches_alt (a b : regex) (cur : cursor) :
  matches (Alt a b) cur = matches a cur ++ matches b cur.
Proof. reflexivity. Qed.

Lemma matches_duration_units (pos : nat) (s : str)
  (g : list (nat * (nat * nat))) :
  matches duration_units (Cursor pos s g) = [] <->
  startswith (lit "day") s || startswith (lit "hour") s
  || startswith (lit "hr") s = false.
Proof.
  unfold duration_units. cbn [alts]. rewrite !matches_alt. unfold w.
  rewrite !matches_word.
  change (lit "days") with (lit "day" ++ lit "s").
  change (lit "hours") with (lit "hour" ++ lit "s").
  change (lit "hrs") with (lit "hr" ++ lit "s").
  rewrite !startswith_app.
  destruct (startswith (lit "day") s); [split; discriminate|].
  destruct (startswith (lit "hour") s); [split; discriminate|].
  destruct (startswith (lit "hr") s); [split; discriminate|].
  split; reflexivity.
Qed.

Lemma digit_not_space (c : ascii) : is_digit c = true -> is_space c = false.
Proof.
  unfold is_digit, is_space, between. intros H.
  apply andb_true_iff in H as [H1 H2].
  apply Nat.leb_le in H1, H2.
  repeat (apply orb_false_iff; split);
    try (apply andb_false_iff; right; apply Nat.leb_gt; lia);
    try (apply andb_false_iff; left; apply Nat.leb_gt; lia);
    apply Nat.eqb_neq; lia.
Qed.

Lemma begins_digit_no_unit (s : str) :
  begins is_digit s = true ->
  startswith (lit "day") s || startswith (lit "hour") s
  || startswith (lit "hr") s = false.
Proof.
  destruct s as [|c s]; [reflexivity|]. cbn [begins]. intros Hc.
  cbn [lit list_ascii_of_string startswith].
  destruct (Ascii.eqb_spec "d" c) as [<-|_]; [discriminate Hc|].
  destruct (Ascii.eqb_spec "h" c) as [<-|_]; [discriminate Hc|].
  reflexivity.
Qed.

Lemma begins_space_no_unit (s : str) :
  begins is_space s = true ->
  startswith (lit "day") s || startswith (lit "hour") s
  || startswith (lit "hr") s = false.
Proof.
  destruct s as [|c s]; [reflexivity|]. cbn [begins]. intros Hc.
  cbn [lit list_ascii_of_string startswith].
  destruct (Ascii.eqb_spec "d" c) as [<-|_]; [discriminate Hc|].
  destruct (Ascii.eqb_spec "h" c) as [<-|_]; [discriminate Hc|].
  reflexivity.
Qed.

(** After the digits and the whitespace the units are tried once: a shorter
    run of whitespace leaves a whitespace character in front of them. *)
Lemma matches_ws0_units (cur : cursor) :
  matches (ws0 +++ duration_units) cur =
  matches duration_units
    (Cursor (c_pos cur + length (takewhile is_space (c_rest cur)))
            (dropwhile is_space (c_rest cur)) (c_groups cur)).
Proof.
  rewrite matches_cat. unfold ws0. cbn [matches].
  destruct (star_shape is_space (c_rest cur) (c_pos cur) (c_groups cur))
    as [tl [E Htl]].
  rewrite E. cbn [flat_map].
  assert (Hnil : flat_map (matches duration_units) tl = []).
  { clear E. induction Htl as [|[pos s g] tl Hc _ IH]; [reflexivity|].
    cbn [flat_map]. rewrite IH, app_nil_r.
    apply matches_duration_units, begins_space_no_unit, Hc. }
  rewrite Hnil. apply app_nil_r.
Qed.

Lemma firstn_takewhile (p : ascii -> bool) (s : str) :
  firstn (length (takewhile p s)) s = takewhile p s.
Proof.
  induction s as [|c s IH]; [reflexivity|]. cbn [takewhile].
  destruct (p c); [|reflexivity]. cbn [length firstn]. rewrite IH.
  reflexivity.
Qed.

(** The match of the pattern of [clean_duration] at the start of a text:
    there is one exactly when the text begins with a digit and a unit
    follows the digits and the whitespace; its group 1 is the whole run of
    digits. *)
Lemma clean_duration_match (text : str) :
  let number := takewhile is_digit text in
  let unit := dropwhile is_space (dropwhile is_digit text) in
  let found := negb (PyStr.eqb number []) &&
               (startswith (lit "day") unit || startswith (lit "hour") unit
                || startswith (lit "hr") unit) in
  match re_match clean_duration_pattern text with
  | Some m => found = true /\ group text 1 m = Some number
  | None => found = false
  end.
Proof.
  cbv zeta. unfold re_match. rewrite match_at_first.
  change clean_duration_pattern
    with (Grp 1 (plus is_digit) +++ ws0 +++ duration_units).
  rewrite matches_cat.
  set (F := matches (ws0 +++ duration_units)).
  change (matches (Grp 1 (plus is_digit)) (Cursor 0 text []))
    with (map (fun c' => Cursor (c_pos c') (c_rest c')
                           ((1, (0, c_pos c')) :: c_groups c'))
              (matches (plus is_digit) (Cursor 0 text []))).
  unfold plus at 1. rewrite matches_cat.
  destruct text as [|a text']; [reflexivity|].
  cbn [matches c_rest c_pos c_groups takewhile dropwhile].
  destruct (is_digit a) eqn:Ha; [|reflexivity].
  cbn [flat_map matches c_rest c_pos c_groups]. rewrite app_nil_r.
  destruct (star_shape is_digit text' 1 []) as [tl [E Htl]].
  rewrite E. cbn [map flat_map c_pos c_rest c_groups].
  assert (Hnil : flat_map F
                   (map (fun c' => Cursor (c_pos c') (c_rest c')
                                     ((1, (0, c_pos c')) :: c_groups c'))
                        tl) = []).
  { clear E. induction Htl as [|[pos s g] tl Hc _ IH]; [reflexivity|].
    cbn [map flat_map c_pos c_rest c_groups]. rewrite IH, app_nil_r.
    unfold F. rewrite matches_ws0_units. cbn [c_rest c_pos c_groups].
    cbn [c_rest] in Hc. destruct s as [|c s]; [discriminate|].
    cbn [begins] in Hc. cbn [takewhile dropwhile].
    rewrite (digit_not_space _ Hc).
    apply matches_duration_units, begins_digit_no_unit, Hc. }
  rewrite Hnil, app_nil_r. unfold F. rewrite matches_ws0_units.
  cbn [c_rest c_pos c_groups PyStr.eqb negb andb].
  set (unit := dropwhile is_space (dropwhile is_digit text')).
  match goal with
  | |- context [matches duration_units ?c] =>
      pose proof (matches_duration_units (c_pos c) (c_rest c) (c_groups c))
        as Hu;
      pose proof (matches_group_free duration_units eq_refl c) as Hg;
      destruct (matches duration_units c) as [|c0 l] eqn:Em
  end.
  - cbn [option_map hd_error]. cbn [c_pos c_rest c_groups] in Hu.
    apply Hu. exact Em.
  - cbn [option_map hd_error]. cbn [c_pos c_rest c_groups] in Hu, Hg. split.
    + destruct (startswith (lit "day") unit || startswith (lit "hour") unit
                || startswith (lit "hr") unit); [reflexivity|].
      destruct Hu as [_ Hu]. rewrite Em in Hu. discriminate (Hu eq_refl).
    + unfold group. cbn [m_end]. rewrite (Hg c0 (or_introl eq_refl)).
      cbn [span_of Nat.eqb option_map fst snd]. unfold substr.
      cbn [skipn Nat.sub Nat.add]. f_equal.
      change (a :: text') with ([a] ++ text') at 1.
      cbn [firstn app]. rewrite firstn_takewhile. reflexivity.
Qed.

(** X1.  [clean_duration] is the function [clean_duration_direct]: the
    result is not empty exactly when the lowercased, trimmed input begins
    with digits that are followed, after optional whitespace, by "day",
    "hour" or "hr"; it is then all the leading digits, a space, and "hours"
    if "hour" or "hr" occurs anywhere in the text, "days" otherwise. *)
Theorem clean_duration_is_direct (duration : str) :
  clean_duration duration = clean_duration_direct duration.
Proof.
  unfold clean_duration, clean_duration_direct.
  destruct duration as [|c duration']; [reflexivity|].
  set (text := strip (lower (c :: duration'))).
  pose proof (clean_duration_match text) as H. cbv zeta in H.
  destruct (re_match clean_duration_pattern text) as [m|].
  - destruct H as [-> ->]. cbn [format_group].
    destruct (contains (lit "hour") text || contains (lit "hr") text);
      reflexivity.
  - rewrite H. reflexivity.
Qed.

(* ===================================================================== *)
(** ** Lowercasing and trimming *)
(* ===================================================================== *)

Lemma is_space_lower (c : ascii) : is_space (lower_char c) = is_space c.
Proof. destruct c as [[] [] [] [] [] [] [] []]; reflexivity. Qed.

Lemma lower_char_idem (c : ascii) :
  lower_char (lower_char c) = lower_char c.
Proof. destruct c as [[] [] [] [] [] [] [] []]; reflexivity. Qed.

Lemma lower_digit (c : ascii) : is_digit c = true -> lower_char c = c.
Proof. destruct c as [[] [] [] [] [] [] [] []]; intros H;
  try reflexivity; discriminate H. Qed.

Lemma lower_idem (s : str) : lower (lower s) = lower s.
Proof.
  unfold lower. rewrite map_map. apply map_ext. apply lower_char_idem.
Qed.

Lemma lower_digits (n : str) : forallb is_digit n = true -> lower n = n.
Proof.
  induction n as [|c n IH]; [reflexivity|]. cbn [forallb]. intros H.
  apply andb_true_iff in H as [Hc Hn]. unfold lower. cbn [map].
  rewrite (lower_digit _ Hc). fold (lower n). rewrite (IH Hn). reflexivity.
Qed.

Lemma dropwhile_space_lower (s : str) :
  dropwhile is_space (lower s) = lower (dropwhile is_space s).
Proof.
  induction s as [|c s IH]; [reflexivity|]. unfold lower in *.
  cbn [map dropwhile]. rewrite is_space_lower.
  destruct (is_space c); [exact IH|reflexivity].
Qed.

Lemma rev_lower (s : str) : rev (lower s) = lower (rev s).
Proof. unfold lower. symmetry. apply map_rev. Qed.

Lemma strip_lower (s : str) : strip (lower s) = lower (strip s).
Proof.
  unfold strip, lstrip, rstrip_by.
  rewrite rev_lower, dropwhile_space_lower, rev_lower.
  apply dropwhile_space_lower.
Qed.

Lemma dropwhile_none (p : ascii -> bool) (s : str) :
  begins p s = false -> dropwhile p s = s.
Proof.
  destruct s as [|c s]; [reflexivity|]. cbn [begins dropwhile].
  intros ->. reflexivity.
Qed.

Lemma rstrip_by_none (p : ascii -> bool) (s : str) :
  begins p (rev s) = false -> rstrip_by p s = s.
Proof.
  intros H. unfold rstrip_by. rewrite (dropwhile_none _ _ H).
  apply rev_involutive.
Qed.

(** A trimmed text neither begins nor ends with whitespace. *)
Lemma strip_begins (s : str) : begins is_space (strip s) = false.
Proof. apply dropwhile_begins. Qed.

Lemma strip_ends (s : str) : begins is_space (rev (strip s)) = false.
Proof.
  unfold strip, lstrip. set (y := rstrip_by is_space s).
  pose proof (rstrip_by_end is_space s) as Hy. fold y in Hy.
  destruct (begins is_space (rev (dropwhile is_space y))) eqn:E;
    [|reflexivity].
  rewrite <- (takewhile_dropwhile is_space y), rev_app_distr in Hy.
  rewrite (begins_app _ _ _ E) in Hy. discriminate.
Qed.

Lemma strip_none (s : str) :
  begins is_space s = false -> begins is_space (rev s) = false ->
  strip s = s.
Proof.
  intros H1 H2. unfold strip, lstrip. rewrite (rstrip_by_none _ _ H2).
  apply dropwhile_none, H1.
Qed.

Lemma strip_idem (s : str) : strip (strip s) = strip s.
Proof. apply strip_none; [apply strip_begins|apply strip_ends]. Qed.

(* ===================================================================== *)
(** ** Normalized durations *)
(* ===================================================================== *)

Lemma dropwhile_app (p : ascii -> bool) (n u : str) :
  forallb p n = true -> begins p u = false ->
  dropwhile p (n ++ u) = u.
Proof.
  intros Hn Hu. induction n as [|a n IH]; cbn [app].
  - apply dropwhile_none, Hu.
  - cbn [forallb] in Hn. apply andb_true_iff in Hn as [Ha Hn].
    cbn [dropwhile]. rewrite Ha. apply IH, Hn.
Qed.

Lemma contains_app_r (sub a b : str) :
  contains sub b = true -> contains sub (a ++ b) = true.
Proof.
  intros H. induction a as [|c a IH]; [exact H|].
  cbn [app contains]. rewrite IH. apply orb_true_r.
Qed.

(** A word that begins with a letter does not start among digits. *)
Lemma contains_after_digits (h : ascii) (sub n u : str) :
  is_digit h = false -> forallb is_digit n = true ->
  contains (h :: sub) (n ++ u) = contains (h :: sub) u.
Proof.
  intros Hh Hn. induction n as [|c n IH]; [reflexivity|].
  cbn [forallb] in Hn. apply andb_true_iff in Hn as [Hc Hn].
  cbn [app contains startswith]. rewrite (IH Hn).
  destruct (Ascii.eqb_spec h c) as [<-|_]; [congruence|reflexivity].
Qed.

(** A normalized duration is left as it is. *)
Lemma clean_duration_fixed (a : ascii) (n u : str) :
  forallb is_digit (a :: n) = true ->
  u = lit " days" \/ u = lit " hours" ->
  clean_duration ((a :: n) ++ u) = (a :: n) ++ u.
Proof.
  intros Hd Hu. unfold clean_duration.
  change ((a :: n) ++ u) with (a :: (n ++ u)) at 1. cbv iota beta.
  change (a :: (n ++ u)) with ((a :: n) ++ u).
  assert (Hb : begins is_digit u = false /\ begins is_space (rev u) = false
               /\ lower u = u)
    by (destruct Hu as [-> | ->]; repeat split).
  destruct Hb as [Hb [He Hl]].
  assert (Ht : strip (lower ((a :: n) ++ u)) = (a :: n) ++ u).
  { unfold lower. rewrite map_app. fold (lower (a :: n)) (lower u).
    rewrite (lower_digits _ Hd), Hl. apply strip_none.
    - cbn [app begins]. cbn [forallb] in Hd.
      apply andb_true_iff in Hd as [Ha _]. apply digit_not_space, Ha.
    - rewrite rev_app_distr.
      destruct (rev u) as [|c ru] eqn:Er.
      + destruct Hu as [-> | ->]; discriminate Er.
      + exact He. }
  rewrite Ht. pose proof (clean_duration_match ((a :: n) ++ u)) as H.
  cbv zeta in H.
  rewrite (takewhile_app is_digit _ _ Hd Hb) in H.
  rewrite (dropwhile_app is_digit _ _ Hd Hb) in H.
  destruct (re_match clean_duration_pattern ((a :: n) ++ u)) as [m|].
  - destruct H as [_ ->]. cbn [format_group].
    change (lit "hour") with ("h"%char :: lit "our").
    change (lit "hr") with ("h"%char :: lit "r").
    rewrite !(@contains_after_digits "h"%char _ (a :: n) u eq_refl Hd).
    destruct Hu as [-> | ->]; reflexivity.
  - destruct Hu as [-> | ->]; discriminate H.
Qed.

(** X2.  [clean_duration] is idempotent: applied to one of its results it
    returns that result. *)
Theorem clean_duration_idempotent (duration : str) :
  clean_duration (clean_duration duration) = clean_duration duration.
Proof.
  destruct (clean_duration duration) as [|c r] eqn:E; [reflexivity|].
  unfold clean_duration in E. destruct duration as [|c0 duration'];
    [discriminate|].
  set (d := strip (lower (c0 :: duration'))) in *.
  destruct (re_match clean_duration_pattern d) as [m|] eqn:Em;
    [|discriminate].
  destruct (clean_duration_number _ Em) as [a [n [Hg Hd]]].
  rewrite Hg in E. cbn [format_group] in E. rewrite <- E.
  destruct (contains (lit "hour") d || contains (lit "hr") d);
    apply clean_duration_fixed; auto.
Qed.

Lemma clean_duration_nil_text (c : ascii) (s : str) :
  strip (lower (c :: s)) = [] -> clean_duration (c :: s) = [].
Proof. unfold clean_duration. intros ->. reflexivity. Qed.

(** The duration read from a reply is [clean_duration] of its content: the
    test for "unknown" and the lowercasing and trimming made before the
    call change nothing. *)
Lemma duration_of_content (content : str) :
  duration_of_completion (Content (Some content)) = clean_duration content.
Proof.
  unfold duration_of_completion.
  assert (Hsl : forall x, strip (lower (lower (strip x))) = strip (lower x)).
  { intros x. rewrite lower_idem, <- strip_lower. apply strip_idem. }
  destruct (PyStr.eqb (lower (strip content)) (lit "unknown")) eqn:Eu.
  - apply str_eqb_eq in Eu. destruct content as [|c s]; [reflexivity|].
    unfold clean_duration. rewrite strip_lower, Eu. reflexivity.
  - destruct (lower (strip content)) as [|d0 dr] eqn:Ed.
    + destruct content as [|c s]; [reflexivity|].
      symmetry. apply clean_duration_nil_text. rewrite strip_lower. exact Ed.
    + destruct content as [|c s]; [discriminate Ed|].
      unfold clean_duration. rewrite <- Ed, Hsl. reflexivity.
Qed.

(** X3.  Whatever the service does, [get_patch_duration_from_llm] sends one
    duration request and returns: the result is [clean_duration] of the
    content of the reply, the empty string when the call raises or the
    reply has no content, and in every case the empty string or an integer
    followed by " days" or " hours". *)
Theorem duration_query_result (W : Type)
  (respond : W -> request -> completion * W) (w : W) (s : str) :
  let reply := respond w (DurationRequest s) in
  let duration := match fst reply with
                  | Content (Some content) => clean_duration content
                  | Content None => []
                  | Raised => []
                  end in
  run respond (get_patch_duration_from_llm s) w = (duration, snd reply) /\
  is_canonical duration = true.
Proof.
  cbv zeta. cbn [get_patch_duration_from_llm run].
  destruct (respond w (DurationRequest s)) as [[|[content|]] w'];
    cbn [run fst snd]; (split; [|try reflexivity]).
  - reflexivity.
  - rewrite duration_of_content. reflexivity.
  - apply clean_duration_canonical.
  - reflexivity.
Qed.

(* ===================================================================== *)
(** ** What a pattern can match *)
(* ===================================================================== *)

Lemma forallb_firstn (p : ascii -> bool) (k : nat) (s : str) :
  forallb p s = true -> forallb p (firstn k s) = true.
Proof.
  revert s. induction k as [|k IH]; intros [|c s]; cbn [firstn forallb];
    auto.
  intros H. apply andb_true_iff in H as [-> H]. apply IH, H.
Qed.

(** Each success of the matcher consumes a text of the pattern. *)
Lemma matches_lang (r : regex) :
  forall cur c, In c (matches r cur) ->
    exists t, c_rest cur = t ++ c_rest c /\
              c_pos c = c_pos cur + length t /\ lang r t.
Proof.
  assert (Hrefl : forall cur : cursor,
    c_rest cur = [] ++ c_rest cur /\ c_pos cur = c_pos cur + length (@nil ascii)).
  { intros cur. cbn [app length]. rewrite Nat.add_0_r. split; reflexivity. }
  induction r as [| |p|a IHa b IHb|a IHa b IHb|a IHa|p|n a IHa];
    intros cur c; cbn [matches lang].
  - intros [<-|[]]. exists []. destruct (Hrefl cur). auto.
  - destruct (c_pos cur =? 0); [|intros []]. intros [<-|[]].
    exists []. destruct (Hrefl cur). auto.
  - destruct (c_rest cur) as [|x s'] eqn:E; [intros []|].
    destruct (p x) eqn:Hx; [|intros []]. intros [<-|[]]. exists [x].
    cbn [c_rest c_pos app length]. rewrite Nat.add_1_r.
    repeat split. exists x. auto.
  - intros H. apply in_flat_map in H as [x [Hx Hc]].
    destruct (IHa _ _ Hx) as [t1 [E1 [P1 L1]]].
    destruct (IHb _ _ Hc) as [t2 [E2 [P2 L2]]].
    exists (t1 ++ t2). rewrite <- app_assoc, <- E2, length_app.
    split; [exact E1|]. split; [lia|]. exists t1, t2. auto.
  - intros H. apply in_app_or in H as [H|H].
    + destruct (IHa _ _ H) as [t [E [P L]]]. exists t. auto.
    + destruct (IHb _ _ H) as [t [E [P L]]]. exists t. auto.
  - intros H. apply in_app_or in H as [H|[<-|[]]].
    + destruct (IHa _ _ H) as [t [E [P L]]]. exists t. auto.
    + exists []. destruct (Hrefl cur). auto.
  - intros H. destruct (star_elements _ _ _ _ _ H) as [k [-> [Hk Hle]]].
    exists (firstn k (c_rest cur)). cbn [c_rest c_pos].
    rewrite firstn_skipn, length_firstn. split; [reflexivity|].
    split; [lia|exact Hk].
  - intros H. apply in_map_iff in H as [y [<- Hy]].
    cbn [c_rest c_pos]. apply (IHa _ _ Hy).
Qed.

Lemma search_from_lang (pattern : regex) (s : str) :
  forall pos pre m,
    search_from pattern false pos s = Some (pre, m) ->
    exists t, s = pre ++ t ++ c_rest (m_end m) /\
              m_start m = pos + length pre /\
              c_pos (m_end m) = m_start m + length t /\ lang pattern t.
Proof.
  induction s as [|a s IH]; intros pos pre m; cbn [search_from];
    destruct (match_at pattern false pos _) as [c|] eqn:Em.
  1,3: intros [= <- <-]; unfold match_at in Em;
       apply find_some in Em as [Hin _];
       destruct (matches_lang _ _ _ Hin) as [t [E [P L]]];
       cbn [c_rest c_pos] in E, P; exists t;
       cbn [app length m_end m_start]; rewrite Nat.add_0_r; auto.
  - discriminate.
  - destruct (search_from pattern false (S pos) s) as [[pre' m']|] eqn:Es;
      [|discriminate].
    intros [= <- <-]. destruct (IH _ _ _ Es) as [t [E [P1 [P2 L]]]].
    exists t. cbn [app length]. rewrite <- E. split; [reflexivity|].
    split; [lia|]. split; [exact P2|exact L].
Qed.

(** What a search reports: a piece of the subject that the pattern can
    match. *)
Lemma search_lang (pattern : regex) (s : str) (m : mobj) :
  search pattern s = Some m ->
  exists pre post, s = pre ++ group0 s m ++ post /\
                   lang pattern (group0 s m).
Proof.
  unfold search.
  destruct (search_from pattern false 0 s) as [[pre m']|] eqn:Es;
    [|discriminate].
  cbn [option_map snd]. intros [= <-].
  destruct (search_from_lang _ _ _ Es) as [t [E [P1 [P2 L]]]].
  cbn [Nat.add] in P1.
  exists pre, (c_rest (m_end m')).
  assert (Hg : group0 s m' = t).
  { unfold group0, substr. rewrite P2, P1.
    replace (length pre + length t - length pre) with (length t) by lia.
    rewrite E at 1. rewrite skipn_app, skipn_all, Nat.sub_diag.
    cbn [skipn app]. rewrite firstn_app, firstn_all, Nat.sub_diag.
    cbn [firstn]. apply app_nil_r. }
  rewrite Hg. split; [exact E|exact L].
Qed.

Lemma lower_app (a b : str) : lower (a ++ b) = lower a ++ lower b.
Proof. apply map_app. Qed.

Lemma lang_chr (ci : bool) (c : ascii) (t : str) :
  lang (chr ci c) t ->
  exists x, t = [x] /\
            (if ci then lower_char x = lower_char c else x = c).
Proof.
  cbn [chr lang]. intros [x [-> H]]. exists x. split; [reflexivity|].
  destruct ci; apply Ascii.eqb_eq, H.
Qed.

(** A word of a case-insensitive pattern matches its letters in any case. *)
Lemma lang_word_ci (w t : str) :
  lang (word true w) t -> lower t = lower w.
Proof.
  revert t. induction w as [|c w IH]; intros t.
  - cbn [word lang]. intros ->. reflexivity.
  - destruct w as [|c' w'].
    + intros H. apply lang_chr in H as [x [-> H]].
      unfold lower. cbn [map]. rewrite H. reflexivity.
    + change (word true (c :: c' :: w'))
        with (Cat (chr true c) (word true (c' :: w'))).
      cbn [lang]. intros [t1 [t2 [-> [H1 H2]]]].
      apply lang_chr in H1 as [x [-> H1]]. apply IH in H2.
      rewrite lower_app, H2. unfold lower. cbn [map app]. rewrite H1.
      reflexivity.
Qed.

Lemma lang_alts (r : regex) (rs : list regex) (t : str) :
  lang (alts r rs) t -> exists r', In r' (r :: rs) /\ lang r' t.
Proof.
  revert r. induction rs as [|r1 rs IH]; intros r; cbn [alts lang].
  - intros H. exists r. split; [left; reflexivity|exact H].
  - intros [H|H].
    + exists r. split; [left; reflexivity|exact H].
    + destruct (IH _ H) as [r' [Hin Hl]]. exists r'.
      split; [right; exact Hin|exact Hl].
Qed.

Lemma startswith_refl_app (a b : str) : startswith a (a ++ b) = true.
Proof.
  induction a as [|c a IH]; [reflexivity|]. cbn [app startswith].
  rewrite ascii_eqb_refl. exact IH.
Qed.

Lemma contains_app_l (sub a b : str) :
  contains sub a = true -> contains sub (a ++ b) = true.
Proof.
  induction a as [|c a IH].
  - cbn [contains]. rewrite orb_false_r. destruct sub; [|discriminate].
    intros _. destruct b; reflexivity.
  - cbn [app contains]. intros H. apply orb_true_iff in H as [H|H].
    + assert (Hs : startswith sub ((c :: a) ++ b) = true).
      { clear IH. revert H. generalize (c :: a) as x. intros x.
        revert x. induction sub as [|y sub IHs]; intros [|z x];
          cbn [app startswith]; auto; try discriminate.
        intros H. apply andb_true_iff in H as [-> H]. apply IHs, H. }
      cbn [app] in Hs. rewrite Hs. reflexivity.
    + rewrite (IH H). apply orb_true_r.
Qed.

Lemma contains_self_app (a b : str) : contains a (a ++ b) = true.
Proof.
  destruct a as [|c a]; [destruct b; reflexivity|].
  cbn [app contains]. change (c :: a ++ b) with ((c :: a) ++ b).
  rewrite startswith_refl_app. reflexivity.
Qed.

(** The word of a case-insensitive pattern is in the lowercased match. *)
Lemma lang_iw (word : string) (t : str) :
  lang (iw word) t -> contains (lower (lit word)) (lower t) = true.
Proof.
  intros H. apply lang_word_ci in H. rewrite H.
  rewrite <- (app_nil_r (lower (lit word))) at 2. apply contains_self_app.
Qed.

Lemma lang_cat_l (a b : regex) (x t : str) :
  (forall t1, lang a t1 -> contains x (lower t1) = true) ->
  lang (Cat a b) t -> contains x (lower t) = true.
Proof.
  intros Ha [t1 [t2 [-> [H1 _]]]]. rewrite lower_app.
  apply contains_app_l, Ha, H1.
Qed.

Lemma lang_cat_r (a b : regex) (x t : str) :
  (forall t2, lang b t2 -> contains x (lower t2) = true) ->
  lang (Cat a b) t -> contains x (lower t) = true.
Proof.
  intros Hb [t1 [t2 [-> [_ H2]]]]. rewrite lower_app.
  apply contains_app_r, Hb, H2.
Qed.

Lemma mentions_intro (words : list str) (word text : str) :
  In word words -> contains word text = true ->
  mentions words text = true.
Proof.
  intros Hin Hc. unfold mentions. apply existsb_exists. exists word. auto.
Qed.

Lemma mentions_app (words : list str) (a t b : str) :
  mentions words t = true -> mentions words (a ++ t ++ b) = true.
Proof.
  unfold mentions. intros H. apply existsb_exists in H as [word [Hin Hc]].
  apply existsb_exists. exists word. split; [exact Hin|].
  apply contains_app_r, contains_app_l, Hc.
Qed.

Lemma mentions_app_r (words : list str) (a t : str) :
  mentions words t = true -> mentions words (a ++ t) = true.
Proof.
  intros H. rewrite <- (app_nil_r t). apply mentions_app, H.
Qed.

Lemma mentions_app_l (words : list str) (t b : str) :
  mentions words t = true -> mentions words (t ++ b) = true.
Proof. intros H. apply (mentions_app words [] t b H). Qed.

Lemma lang_number_digit (t : str) : lang number t -> begins is_digit t = true.
Proof.
  unfold number, plus. cbn [lang].
  intros [t1 [t2 [-> [[t3 [t4 [-> [[c [-> Hc]] _]]]] _]]]]. exact Hc.
Qed.

Lemma lang_strength (t : str) :
  lang strength_pattern t ->
  begins is_digit t = true /\ mentions strength_units (lower t) = true.
Proof.
  unfold strength_pattern.
  assert (Hunit : forall r rs u,
    lang (alts r rs) u ->
    (forall r', In r' (r :: rs) ->
       exists word, r' = iw word /\ In (lower (lit word)) strength_units) ->
    mentions strength_units (lower u) = true).
  { intros r rs u Hl Hw. apply lang_alts in Hl as [r' [Hin Hl]].
    destruct (Hw _ Hin) as [word [-> Hu]].
    apply (mentions_intro _ _ _ Hu). apply lang_iw, Hl. }
  assert (Hstart : forall a b u,
    lang (Grp a number +++ b) u -> begins is_digit u = true).
  { intros a b u [t1 [t2 [-> [H1 _]]]]. cbn [lang] in H1.
    apply lang_number_digit in H1. apply begins_app, H1. }
  intros [H|H]; (split; [apply (Hstart _ _ _ H)|]);
    destruct H as [t1 [t2 [-> [_ [t3 [t4 [-> [_ H]]]]]]]].
  - destruct H as [t5 [t6 [-> [H _]]]].
    rewrite !lower_app. do 2 apply mentions_app_r. apply mentions_app_l.
    apply (Hunit _ _ _ H).
    intros r' Hin. cbn [In] in Hin.
    repeat (destruct Hin as [<-|Hin];
            [eexists; split; [reflexivity|]; cbn; tauto|]).
    destruct Hin.
  - rewrite !lower_app. do 2 apply mentions_app_r.
    apply (Hunit _ _ _ H).
    intros r' Hin. cbn [In] in Hin.
    repeat (destruct Hin as [<-|Hin];
            [eexists; split; [reflexivity|]; cbn; tauto|]).
    destruct Hin.
Qed.

Lemma lang_formulation (t : str) :
  lang formulation_pattern t ->
  mentions formulation_words (lower t) = true.
Proof.
  unfold formulation_pattern. cbn [lang]. intros H.
  apply lang_alts in H as [r' [Hin H]].
  assert (Hw : forall word u,
    In (lower (lit word)) formulation_words -> lang (iw word) u ->
    mentions formulation_words (lower u) = true).
  { intros word u Hin' Hl. apply (mentions_intro _ _ _ Hin').
    apply lang_iw, Hl. }
  assert (Hplural : forall word u,
    In (lower (lit word)) formulation_words ->
    lang (iw word +++ Opt (iw "s")) u ->
    mentions formulation_words (lower u) = true).
  { intros word u Hin' [t1 [t2 [-> [H1 _]]]]. rewrite lower_app.
    apply mentions_app_l, (Hw _ _ Hin' H1). }
  assert (Hprefixed : forall a word u,
    In (lower (lit word)) formulation_words ->
    lang (a +++ iw word +++ Opt (iw "s")) u ->
    mentions formulation_words (lower u) = true).
  { intros a word u Hin' [t1 [t2 [-> [_ H2]]]]. rewrite lower_app.
    apply mentions_app_r, (Hplural _ _ Hin' H2). }
  cbn [In] in Hin.
  repeat (destruct Hin as [<-|Hin];
          [first [ refine (Hplural _ _ _ H); cbn; tauto
                 | refine (Hprefixed _ _ _ _ H); cbn; tauto
                 | refine (Hw _ _ _ H); cbn; tauto
                 | idtac ]|]).
  - (* oral\s+solution *)
    destruct H as [t1 [t2 [-> [_ [t3 [t4 [-> [_ H]]]]]]]].
    rewrite !lower_app. do 2 apply mentions_app_r.
    refine (Hw _ _ _ H). cbn. tauto.
  - destruct Hin.
Qed.

(** X4.  The strength that the pattern extractor reports is a piece of the
    raw string, letter for letter; when it is not empty it begins with a
    digit and, lowercased, contains one of the units micrograms, mcg, mg,
    g, ml, %. *)
Theorem strength_is_quantity_of_raw (raw : str) :
  let strength := search_group0 strength_pattern raw in
  (exists pre post, raw = pre ++ strength ++ post) /\
  (strength <> [] ->
   begins is_digit strength = true /\
   mentions strength_units (lower strength) = true).
Proof.
  cbv zeta. unfold search_group0.
  destruct (search strength_pattern raw) as [m|] eqn:Es.
  - destruct (search_lang _ _ Es) as [pre [post [E L]]].
    split; [exists pre, post; exact E|].
    intros _. apply lang_strength, L.
  - split; [exists [], raw; reflexivity|]. congruence.
Qed.

Lemma startswith_ci_lower (word text : str) :
  lower word = word ->
  startswith_ci word text = startswith word (lower text).
Proof.
  revert text. induction word as [|c word IH]; intros text Hw;
    [reflexivity|].
  unfold lower in Hw. cbn [map] in Hw. injection Hw as Hc Hw.
  destruct text as [|x text]; [reflexivity|].
  unfold lower. cbn [map startswith_ci startswith]. fold (lower text).
  rewrite (IH text Hw). unfold same_letter. rewrite Hc.
  rewrite (Ascii.eqb_sym c). reflexivity.
Qed.

Lemma contains_ci_lower (word text : str) :
  lower word = word ->
  contains_ci word text = contains word (lower text).
Proof.
  intros Hw. induction text as [|x text IH].
  - cbn [contains_ci contains lower map].
    rewrite (startswith_ci_lower [] Hw). reflexivity.
  - cbn [contains_ci]. rewrite (startswith_ci_lower (x :: text) Hw), IH.
    reflexivity.
Qed.

Lemma mentions_ci_lower (text : str) :
  mentions_ci formulation_words text
  = mentions formulation_words (lower text).
Proof.
  unfold mentions_ci, mentions, formulation_words. cbn [existsb].
  rewrite !contains_ci_lower by reflexivity. reflexivity.
Qed.

(** X5.  The formulation that the pattern extractor reports is a piece of
    the raw string, letter for letter; when it is not empty it contains
    one of the words tablet, capsule, syringe, patche, solution,
    suspension, cream, ointment, injection, powder, liquid, ampoule,
    bottle, each letter compared as the pattern compares it (without
    regard to case).  A raw string that contains none of them under this
    comparison, such as one whose only such word is "patch", has the empty
    formulation. *)
Theorem formulation_is_word_of_raw (raw : str) :
  let formulation := search_group0 formulation_pattern raw in
  (exists pre post, raw = pre ++ formulation ++ post) /\
  (formulation <> [] ->
   mentions_ci formulation_words formulation = true) /\
  (mentions_ci formulation_words raw = false -> formulation = []).
Proof.
  cbv zeta. rewrite !mentions_ci_lower. unfold search_group0.
  destruct (search formulation_pattern raw) as [m|] eqn:Es.
  - destruct (search_lang _ _ Es) as [pre [post [E L]]].
    apply lang_formulation in L.
    split; [exists pre, post; exact E|]. split; [intros _; exact L|].
    intros H. rewrite E, !lower_app, (mentions_app _ _ _ _ L) in H.
    discriminate.
  - split; [exists [], raw; reflexivity|]. split; [congruence|reflexivity].
Qed.

(** A transdermal patch in the singular: no formulation. *)
Lemma patch_in_the_singular :
  mentions_ci formulation_words
    (lit "Fentanyl 72 hour transdermal patch") = false /\
  search_group0 formulation_pattern
    (lit "Fentanyl 72 hour transdermal patch") = [] /\
  search_group0 formulation_pattern
    (lit "Fentanyl 72 hour transdermal patches") = lit "transdermal patches".
Proof. vm_compute. repeat split. Qed.

(* ===================================================================== *)
(** ** The explicit duration of a patch *)
(* ===================================================================== *)

Lemma is_digit_lower (c : ascii) : is_digit (lower_char c) = is_digit c.
Proof. destruct c as [[] [] [] [] [] [] [] []]; reflexivity. Qed.

Lemma forallb_space_lower (s : str) :
  forallb is_space (lower s) = forallb is_space s.
Proof.
  induction s as [|c s IH]; [reflexivity|]. unfold lower in *.
  cbn [map forallb]. rewrite is_space_lower, IH. reflexivity.
Qed.

(** The shape of a text matched by the explicit-duration pattern. *)
Lemma lang_patch_duration (t : str) :
  lang patch_duration_pattern t ->
  exists n frac tw tu,
    t = n ++ frac ++ tw ++ tu /\
    n <> [] /\ forallb is_digit n = true /\
    (frac = [] \/ begins (Ascii.eqb ".") frac = true) /\
    forallb is_space tw = true /\
    In (lower tu) [lit "day"; lit "days"; lit "hour"; lit "hours";
                   lit "hr"; lit "hrs"].
Proof.
  unfold patch_duration_pattern. cbn [lang].
  intros [tn [t2 [-> [Hn [tw [tu [-> [Hw Hu]]]]]]]].
  unfold number, plus in Hn. cbn [lang] in Hn.
  destruct Hn as [tn1 [frac [-> [[t3 [ds [-> [[c [-> Hc]] Hds]]]] Hf]]]].
  exists ([c] ++ ds), frac, tw, tu. rewrite <- !app_assoc.
  split; [reflexivity|]. split; [discriminate|].
  split; [cbn [app forallb]; rewrite Hc; exact Hds|].
  split.
  - destruct Hf as [->|[t5 [t6 [-> [[d [-> Hd]] _]]]]]; [left; reflexivity|].
    right. exact Hd.
  - split; [exact Hw|]. apply lang_alts in Hu as [r' [Hin Hl]].
    cbn [In] in Hin.
    repeat (destruct Hin as [<-|Hin];
            [apply lang_word_ci in Hl; rewrite Hl; cbn; tauto|]).
    destruct Hin.
Qed.

Lemma unit_first_letter (tu : str) :
  In (lower tu) [lit "day"; lit "days"; lit "hour"; lit "hours";
                 lit "hr"; lit "hrs"] ->
  begins is_space tu = false /\ begins is_digit tu = false /\
  begins (Ascii.eqb ".") tu = false /\
  begins is_space (rev (lower tu)) = false.
Proof.
  intros Hin. destruct tu as [|c tu'].
  - cbn in Hin. repeat (destruct Hin as [Hin|Hin]; [discriminate Hin|]).
    destruct Hin.
  - cbn [begins].
    assert (Hc : lower_char c = "d"%char \/ lower_char c = "h"%char).
    { cbn [In] in Hin. unfold lower in Hin. cbn [map] in Hin.
      repeat (destruct Hin as [Hin|Hin];
              [injection Hin as Hin _; auto|]).
      destruct Hin. }
    rewrite <- (is_space_lower c), <- (is_digit_lower c).
    split; [destruct Hc as [-> | ->]; reflexivity|].
    split; [destruct Hc as [-> | ->]; reflexivity|].
    split.
    + destruct (Ascii.eqb_spec "." c) as [<-|_]; [|reflexivity].
      destruct Hc as [Hc|Hc]; discriminate Hc.
    + cbn [In] in Hin.
      repeat (destruct Hin as [Hin|Hin]; [rewrite <- Hin; reflexivity|]).
      destruct Hin.
Qed.

Lemma begins_app_class (p : ascii -> bool) (a b : str) :
  begins p a = false -> (a = [] -> begins p b = false) ->
  begins p (a ++ b) = false.
Proof. destruct a as [|c a]; cbn [app begins]; auto. Qed.

Lemma forallb_begins_not (p q : ascii -> bool) (a : str) :
  (forall c, p c = true -> q c = false) ->
  forallb p a = true -> begins q a = false.
Proof.
  intros Hpq. destruct a as [|c a]; [reflexivity|]. cbn [forallb begins].
  intros H. apply andb_true_iff in H as [H _]. apply Hpq, H.
Qed.

Lemma contains_skip (h : ascii) (sub n u : str) :
  forallb (fun c => negb (Ascii.eqb h c)) n = true ->
  contains (h :: sub) (n ++ u) = contains (h :: sub) u.
Proof.
  intros Hn. induction n as [|c n IH]; [reflexivity|].
  cbn [forallb] in Hn. apply andb_true_iff in Hn as [Hc Hn].
  cbn [app contains startswith]. rewrite (IH Hn).
  destruct (Ascii.eqb h c); [discriminate Hc|reflexivity].
Qed.

Lemma forallb_weaken (p q : ascii -> bool) (a : str) :
  (forall c, p c = true -> q c = true) ->
  forallb p a = true -> forallb q a = true.
Proof.
  intros Hpq. induction a as [|c a IH]; [reflexivity|]. cbn [forallb].
  intros H. apply andb_true_iff in H as [H1 H2].
  rewrite (Hpq _ H1), (IH H2). reflexivity.
Qed.

Lemma clean_duration_as_direct (duration : str) :
  clean_duration duration = clean_duration_direct duration.
Proof.
  unfold clean_duration, clean_duration_direct.
  destruct duration as [|c duration']; [reflexivity|].
  set (text := strip (lower (c :: duration'))).
  pose proof (clean_duration_match text) as H. cbv zeta in H.
  destruct (re_match clean_duration_pattern text) as [m|].
  - destruct H as [-> ->]. cbn [format_group].
    destruct (contains (lit "hour") text || contains (lit "hr") text);
      reflexivity.
  - rewrite H. reflexivity.
Qed.

(** The normalized duration of a text matched by the explicit-duration
    pattern. *)
Lemma clean_duration_of_match (t : str) :
  lang patch_duration_pattern t ->
  clean_duration t = explicit_duration t.
Proof.
  intros H. apply lang_patch_duration in H
    as [n [frac [tw [tu [-> [Hn0 [Hn [Hf [Hw Hu]]]]]]]]].
  destruct (unit_first_letter _ Hu) as [Hus [Hud [Hup Hue]]].
  assert (Hsd : forall c, is_space c = true -> is_digit c = false).
  { intros c Hc. destruct (is_digit c) eqn:E; [|reflexivity].
    rewrite (digit_not_space _ E) in Hc. discriminate. }
  assert (Hsp : forall c, is_space c = true -> Ascii.eqb "." c = false).
  { intros c Hc. destruct (Ascii.eqb_spec "." c) as [<-|_];
      [discriminate Hc|reflexivity]. }
  assert (Hdh : forall c, is_digit c = true ->
                          negb (Ascii.eqb "h" c) = true).
  { intros c Hc. destruct (Ascii.eqb_spec "h" c) as [<-|_];
      [discriminate Hc|reflexivity]. }
  assert (Hsh : forall c, is_space c = true ->
                          negb (Ascii.eqb "h" c) = true).
  { intros c Hc. destruct (Ascii.eqb_spec "h" c) as [<-|_];
      [discriminate Hc|reflexivity]. }
  assert (Hlw : forallb is_space (lower tw) = true)
    by (rewrite forallb_space_lower; exact Hw).
  assert (Hlu : begins is_space (lower tu) = false /\
                begins is_digit (lower tu) = false).
  { destruct tu as [|c tu']; [split; reflexivity|].
    unfold lower. cbn [map begins].
    rewrite is_space_lower, is_digit_lower. split; assumption. }
  destruct Hlu as [Hlus Hlud].
  rewrite clean_duration_as_direct.
  unfold clean_duration_direct, explicit_duration.
  destruct n as [|a n']; [congruence|]. clear Hn0.
  set (n := a :: n') in *.
  change (n ++ frac ++ tw ++ tu) with (a :: (n' ++ frac ++ tw ++ tu)) at 1.
  cbv iota beta zeta.
  change (a :: (n' ++ frac ++ tw ++ tu)) with (n ++ frac ++ tw ++ tu).
  rewrite !lower_app, (lower_digits _ Hn).
  assert (Ha : is_digit a = true).
  { unfold n in Hn. cbn [forallb] in Hn.
    apply andb_true_iff in Hn as [Ha _]. exact Ha. }
  assert (Hst : strip (n ++ lower frac ++ lower tw ++ lower tu) =
                n ++ lower frac ++ lower tw ++ lower tu).
  { apply strip_none.
    - unfold n. cbn [app begins]. apply digit_not_space, Ha.
    - rewrite !app_assoc, rev_app_distr. apply begins_app_class;
        [exact Hue|].
      intros E. cbn [In] in Hu.
      repeat (destruct Hu as [Hu|Hu];
              [rewrite <- Hu in E; discriminate E|]).
      destruct Hu. }
  rewrite Hst. clear Hst.
  destruct Hf as [->|Hf].
  - cbn [lower map app].
    fold (lower tw) (lower tu).
    assert (Hb1 : begins is_digit (lower tw ++ lower tu) = false)
      by (apply begins_app_class;
          [apply (@forallb_begins_not _ _ _ Hsd Hlw)|intros _; exact Hlud]).
    assert (Hb2 : begins is_digit (tw ++ tu) = false)
      by (apply begins_app_class;
          [apply (@forallb_begins_not _ _ _ Hsd Hw)|intros _; exact Hud]).
    assert (Hb3 : begins (Ascii.eqb ".") (tw ++ tu) = false)
      by (apply begins_app_class;
          [apply (@forallb_begins_not _ _ _ Hsp Hw)|intros _; exact Hup]).
    rewrite (takewhile_app is_digit _ _ Hn Hb1).
    rewrite (dropwhile_app is_digit _ _ Hn Hb1).
    rewrite (takewhile_app is_digit _ _ Hn Hb2).
    rewrite (dropwhile_app is_digit _ _ Hn Hb2).
    rewrite Hb3.
    rewrite (dropwhile_app is_space _ _ Hlw Hlus).
    rewrite (dropwhile_app is_space _ _ Hw Hus).
    change (lit "hour") with ("h"%char :: lit "our").
    change (lit "hr") with ("h"%char :: lit "r").
    rewrite !(@contains_skip "h"%char _ n _ (@forallb_weaken _ _ _ Hdh Hn)).
    rewrite !(@contains_skip "h"%char _ (lower tw) _
                (@forallb_weaken _ _ _ Hsh Hlw)).
    cbn [In] in Hu.
    repeat (destruct Hu as [Hu|Hu]; [rewrite <- Hu; reflexivity|]).
    destruct Hu.
  - destruct frac as [|c frac']; [discriminate Hf|]. cbn [begins] in Hf.
    apply Ascii.eqb_eq in Hf. subst c.
    change (lower ("."%char :: frac')) with ("."%char :: lower frac').
    assert (Hb1 : begins is_digit
                    (("."%char :: lower frac') ++ lower tw ++ lower tu)
                  = false) by reflexivity.
    assert (Hb2 : begins is_digit (("."%char :: frac') ++ tw ++ tu) = false)
      by reflexivity.
    rewrite (takewhile_app is_digit _ _ Hn Hb1).
    rewrite (dropwhile_app is_digit _ _ Hn Hb1).
    rewrite (dropwhile_app is_digit _ _ Hn Hb2).
    cbn [app begins dropwhile].
    change (is_space "."%char) with false. cbv iota.
    cbn [startswith Ascii.eqb Bool.eqb orb andb].
    rewrite andb_false_r. reflexivity.
Qed.

(** X6. For a string that names a patch and states a duration (a number
    and a unit of days or hours), the pattern extractor takes the leftmost
    such statement of the string and derives the duration from it alone:
    nothing when the number has a fraction, else the digits of the number
    with "hours" for a unit of hours and "days" for a unit of days. *)
Theorem explicit_duration_of_patch (W : Type)
  (respond : W -> request -> completion * W) (w : W) (s : str) :
  is_patch s = true -> asks_model s = false ->
  let matched := search_group0 patch_duration_pattern s in
  (exists pre post, s = pre ++ matched ++ post) /\
  dict_get (lit "duration") (fst (run respond (extract_components_regex s) w))
    = Some (JStr (explicit_duration matched)).
Proof.
  intros Hp Ha. unfold asks_model in Ha. rewrite Hp in Ha.
  unfold search_group0, extract_components_regex. rewrite Hp.
  destruct (search patch_duration_pattern s) as [m|] eqn:E;
    [|discriminate Ha].
  destruct (search_lang _ _ E) as [pre [post [Hs Hl]]].
  split; [exists pre, post; exact Hs|].
  cbn [run fst]. rewrite dict_get_set_same.
  rewrite (clean_duration_of_match Hl). reflexivity.
Qed.

Lemma explicit_duration_of_patch_witness :
  dict_get (lit "duration")
    (fst (run scripted
            (extract_components_regex
               (lit "Fentanyl 12.5 hour transdermal patch")) []))
    = Some (JStr []) /\
  dict_get (lit "duration")
    (fst (run scripted
            (extract_components_regex
               (lit "Fentanyl 72 Hour transdermal patch")) []))
    = Some (JStr (lit "72 hours")).
Proof.
  split.
  - apply (proj2 (@explicit_duration_of_patch _ scripted []
                    (lit "Fentanyl 12.5 hour transdermal patch")
                    eq_refl eq_refl)).
  - apply (proj2 (@explicit_duration_of_patch _ scripted []
                    (lit "Fentanyl 72 Hour transdermal patch")
                    eq_refl eq_refl)).
Defined.

(* ===================================================================== *)
(** ** The response of the model: what is used of it *)
(* ===================================================================== *)

(** X8.  Every completion that does not give a JSON object is handled like
    a failed call: when the call raises, when the completion has no
    content, when the content is not JSON, and when it is JSON but a list,
    a string, a number, a boolean or null, [extract_components] returns
    what [extract_components_regex] returns for the same string, run on
    the service after the first request. *)
Theorem fallback_without_object (json_loads : str -> option json)
  (W : Type) (respond : W -> request -> completion * W) (w : W) (s : str) :
  reply_object json_loads (fst (respond w (ExtractRequest s))) = None ->
  run respond (extract_components json_loads s) w =
  run respond (extract_components_regex s)
      (snd (respond w (ExtractRequest s))).
Proof.
  intros H. cbn [run extract_components].
  destruct (respond w (ExtractRequest s)) as [c w']. cbn [fst snd] in *.
  destruct c as [|[text|]]; [reflexivity| |reflexivity].
  cbn [reply_object] in H.
  destruct (json_loads (unfenced text)) as [[]|]; try reflexivity.
  discriminate H.
Qed.

Lemma fallback_without_object_witness :
  run scripted (extract_components Flat.loads (lit "Aspirin 5mg tablets"))
      [Content None] =
  run scripted (extract_components_regex (lit "Aspirin 5mg tablets")) [] /\
  run scripted (extract_components loads_list (lit "Aspirin 5mg tablets"))
      [Content (Some (lit "[]"))] =
  run scripted (extract_components_regex (lit "Aspirin 5mg tablets")) [].
Proof.
  split.
  - apply (@fallback_without_object Flat.loads _ scripted [Content None]
             (lit "Aspirin 5mg tablets")). reflexivity.
  - apply (@fallback_without_object loads_list _ scripted
             [Content (Some (lit "[]"))] (lit "Aspirin 5mg tablets")).
    reflexivity.
Defined.

Lemma fill_truthy (k : str) (pattern : regex) (s : str) (d : dict) :
  get_truthy k d = true -> fill k pattern s d = d.
Proof. unfold fill. intros ->. reflexivity. Qed.

(** X9.  On a response that decodes to an object, what the model supplied
    is taken over unchecked: every key other than strength, formulation and
    duration (the name among them, and keys that were not asked for) has in
    the result the value of the response, whatever JSON value it is; a
    strength or formulation of the response that is not empty is kept, be
    it part of the raw string or not; and for a string that names no patch
    the duration is the one of the response, if it has one. *)
Theorem model_fields_kept (json_loads : str -> option json)
  (W : Type) (respond : W -> request -> completion * W) (w : W)
  (s text : str) (d : dict) :
  fst (respond w (ExtractRequest s)) = Content (Some text) ->
  json_loads (unfenced text) = Some (JObj d) ->
  let out := fst (run respond (extract_components json_loads s) w) in
  (forall k, PyStr.eqb (lit "strength") k = false ->
             PyStr.eqb (lit "formulation") k = false ->
             PyStr.eqb (lit "duration") k = false ->
             dict_get k out = dict_get k d) /\
  (get_truthy (lit "strength") d = true ->
   dict_get (lit "strength") out = dict_get (lit "strength") d) /\
  (get_truthy (lit "formulation") d = true ->
   dict_get (lit "formulation") out = dict_get (lit "formulation") d) /\
  (is_patch s = false ->
   dict_get (lit "duration") out = dict_get (lit "duration") d).
Proof.
  intros Hc Hd out. split; [|split; [|split]].
  - intros k Hs Hf Hk. unfold out.
    rewrite (@extract_components_object_get json_loads _ respond w s text k d
               Hc Hd Hk).
    rewrite !dict_get_fill_other by assumption. reflexivity.
  - intros Ht. unfold out.
    rewrite (@extract_components_object_get json_loads _ respond w s text
               (lit "strength") d Hc Hd eq_refl).
    rewrite dict_get_fill_other by reflexivity.
    rewrite (@fill_truthy _ strength_pattern s _ Ht). reflexivity.
  - intros Ht. unfold out.
    rewrite (@extract_components_object_get json_loads _ respond w s text
               (lit "formulation") d Hc Hd eq_refl).
    assert (Ht' : get_truthy (lit "formulation")
                    (fill (lit "strength") strength_pattern s d) = true).
    { unfold get_truthy in *.
      rewrite dict_get_fill_other by reflexivity. exact Ht. }
    rewrite (@fill_truthy _ formulation_pattern s _ Ht').
    apply dict_get_fill_other. reflexivity.
  - intros Hp. unfold out. cbn [run extract_components].
    destruct (respond w (ExtractRequest s)) as [c w']. cbn [fst] in Hc.
    subst c. rewrite Hd, Hp. cbn [run fst].
    rewrite !dict_get_fill_other by reflexivity. reflexivity.
Qed.

Lemma model_fields_kept_witness :
  let out := fst (run scripted
                    (extract_components Flat.loads (lit "Aspirin 5mg tablets"))
                    [Content (Some reply_with_duration)]) in
  dict_get (lit "name") out = Some (JStr (lit "Fentanyl")) /\
  dict_get (lit "formulation") out = Some (JStr (lit "patch")) /\
  dict_get (lit "duration") out = Some (JStr (lit "72 hrs")).
Proof.
  pose proof (@model_fields_kept Flat.loads _ scripted
                [Content (Some reply_with_duration)]
                (lit "Aspirin 5mg tablets") reply_with_duration
                duration_reply_dict eq_refl eq_refl) as H.
  cbv zeta in H. destruct H as [Hk [_ [Hf Hd]]].
  split; [exact (Hk (lit "name") eq_refl eq_refl eq_refl)|].
  split; [exact (Hf eq_refl)|exact (Hd eq_refl)].
Defined.

Lemma patch_duration_cascade_witness :
  dict_get (lit "duration")
    (fst (run scripted (extract_components Flat.loads (lit "Fentanyl patch"))
            [Content (Some reply_with_duration)]))
    = Some (JStr (lit "72 hrs")) /\
  dict_get (lit "duration")
    (fst (run scripted
            (extract_components Flat.loads
               (lit "Fentanyl 72 hour transdermal patch"))
            [Content (Some reply_with_duration)]))
    = Some (JStr (lit "72 hours")) /\
  dict_get (lit "duration")
    (fst (run scripted (extract_components Flat.loads (lit "Fentanyl patch"))
            [Content (Some fenced_reply); Content (Some (lit "3 Days"))]))
    = Some (JStr (lit "3 days")).
Proof.
  split; [|split].
  - apply (@patch_duration_cascade Flat.loads _ scripted
             [Content (Some reply_with_duration)] (lit "Fentanyl patch")
             reply_with_duration duration_reply_dict
             eq_refl eq_refl eq_refl).
  - apply (@patch_duration_cascade Flat.loads _ scripted
             [Content (Some reply_with_duration)]
             (lit "Fentanyl 72 hour transdermal patch")
             reply_with_duration duration_reply_dict
             eq_refl eq_refl eq_refl).
  - apply (@patch_duration_cascade Flat.loads _ scripted
             [Content (Some fenced_reply); Content (Some (lit "3 Days"))]
             (lit "Fentanyl patch")
             fenced_reply [(lit "name", JStr (lit "X"))]
             eq_refl eq_refl eq_refl).
Defined.

(* ===================================================================== *)
(** ** The requests sent to the service *)
(* ===================================================================== *)

Lemma asked_bind (W : Type) (respond : W -> request -> completion * W)
  (A B : Type) (m : io A) (f : A -> io B) (w : W) :
  asked respond (bind m f) w =
  asked respond m w ++
  asked respond (f (fst (run respond m w))) (snd (run respond m w)).
Proof.
  revert w. induction m as [a|req k IH]; intros w; simpl.
  - reflexivity.
  - destruct (respond w req) as [c w']. cbn [app]. f_equal. apply IH.
Qed.

Lemma asked_extract_components_regex (W : Type)
  (respond : W -> request -> completion * W) (w : W) (s : str) :
  asked respond (extract_components_regex s) w =
  if asks_model s then [DurationRequest s] else [].
Proof.
  unfold extract_components_regex, asks_model.
  destruct (is_patch s); [|reflexivity]. cbn [andb].
  destruct (search patch_duration_pattern s); [reflexivity|].
  cbn [get_patch_duration_from_llm bind asked].
  destruct (respond w (DurationRequest s)). reflexivity.
Qed.

Lemma asked_extract_components (json_loads : str -> option json) (W : Type)
  (respond : W -> request -> completion * W) (w : W) (s : str) :
  asked respond (extract_components json_loads s) w =
  ExtractRequest s ::
  (if asks_model s &&
      negb (supplies_duration json_loads (fst (respond w (ExtractRequest s))))
   then [DurationRequest s] else []).
Proof.
  cbn [asked extract_components].
  destruct (respond w (ExtractRequest s)) as [c w']. cbn [fst]. f_equal.
  unfold supplies_duration.
  assert (Hr : asked respond (extract_components_regex s) w' =
               if asks_model s && negb false then [DurationRequest s]
               else [])
    by (rewrite andb_true_r; apply asked_extract_components_regex).
  destruct c as [|[text|]]; cbn [reply_object]; try exact Hr.
  destruct (json_loads (unfenced text)) as [[| | | | | |d]|]; try exact Hr.
  unfold asks_model. destruct (is_patch s); [|reflexivity]. cbn [andb].
  destruct (search patch_duration_pattern s); [reflexivity|].
  unfold get_truthy at 1. rewrite !dict_get_fill_other by reflexivity.
  fold (get_truthy (lit "duration") d).
  destruct (get_truthy (lit "duration") d); [reflexivity|].
  cbn [negb get_patch_duration_from_llm bind asked].
  destruct (respond w' (DurationRequest s)). reflexivity.
Qed.

(** X11.  [extract_components] sends the request for the components first,
    and after it at most one request, for the duration: exactly when the
    string names a patch, states no duration itself, and the response to
    the first request supplied none (or was no object at all).  Both
    requests are about the given string. *)
Theorem extract_components_requests (json_loads : str -> option json)
  (W : Type) (respond : W -> request -> completion * W) (w : W) (s : str) :
  asked respond (extract_components json_loads s) w =
  ExtractRequest s ::
  (if asks_model s &&
      negb (supplies_duration json_loads (fst (respond w (ExtractRequest s))))
   then [DurationRequest s] else []).
Proof. apply asked_extract_components. Qed.

Lemma length_asked_extract_components (json_loads : str -> option json)
  (W : Type) (respond : W -> request -> completion * W) (w : W) (s : str) :
  length (asked respond (extract_components json_loads s) w) <=
  1 + (if asks_model s then 1 else 0).
Proof.
  rewrite asked_extract_components. cbn [length].
  destruct (asks_model s); cbn [andb];
    [destruct (negb _)|]; cbn [length]; lia.
Qed.

Lemma filter_asked_extract_components (json_loads : str -> option json)
  (W : Type) (respond : W -> request -> completion * W) (w : W) (s : str) :
  filter is_extraction (asked respond (extract_components json_loads s) w)
  = [ExtractRequest s].
Proof.
  rewrite asked_extract_components. cbn [filter is_extraction].
  destruct (_ && _); reflexivity.
Qed.

Lemma asked_process_loop (json_loads : str -> option json) (W : Type)
  (respond : W -> request -> completion * W) (medicines : list medicine) :
  forall (w : W) (acc : list dict),
    let reqs := asked respond (process_loop json_loads medicines acc) w in
    length reqs <=
      length medicines +
      length (filter (fun m => asks_model (NM m)) medicines) /\
    forall out,
      fst (run respond (process_loop json_loads medicines acc) w) = Ok out ->
      filter is_extraction reqs
      = map (fun m => ExtractRequest (NM m)) medicines.
Proof.
  induction medicines as [|m ms IH]; intros w acc reqs.
  - split; [cbn; lia|]. intros out _. reflexivity.
  - unfold reqs. cbn [process_loop]. rewrite asked_bind, run_bind.
    set (c := fst (run respond (extract_components json_loads (NM m)) w)).
    set (w' := snd (run respond (extract_components json_loads (NM m)) w)).
    pose proof (length_asked_extract_components json_loads respond w (NM m))
      as Hl.
    rewrite length_app, filter_app, filter_asked_extract_components.
    cbn [length filter map].
    destruct (processed_medicine m c) as [item|e].
    + destruct (IH w' (acc ++ [item])) as [IH1 IH2]. split.
      * destruct (asks_model (NM m)); cbn [length] in *; lia.
      * intros out Ho. cbn [app]. f_equal. apply (IH2 out Ho).
    + split.
      * cbn [asked length]. destruct (asks_model (NM m)); cbn [length]; lia.
      * intros out Ho. cbn [run fst] in Ho. discriminate Ho.
Qed.

(** X12.  The requests of a batch: [process_medicine_list] sends at most
    one request for each medicine and one more for each patch that states
    no duration, hence at most two for each medicine; when it returns a
    list, the requests for the components are those of the medicines, one
    for each, in the order of the input. *)
Theorem process_medicine_list_requests (json_loads : str -> option json)
  (W : Type) (respond : W -> request -> completion * W) (w : W)
  (medicines : list medicine) :
  let reqs := asked respond (process_medicine_list json_loads medicines) w in
  length reqs <=
    length medicines +
    length (filter (fun m => asks_model (NM m)) medicines) /\
  length reqs <= 2 * length medicines /\
  forall out,
    fst (run respond (process_medicine_list json_loads medicines) w)
      = Ok out ->
    filter is_extraction reqs
    = map (fun m => ExtractRequest (NM m)) medicines.
Proof.
  intros reqs. unfold reqs, process_medicine_list.
  destruct (asked_process_loop json_loads respond medicines w [])
    as [H1 H2].
  split; [exact H1|]. split; [|exact H2].
  pose proof (filter_length_le (fun m => asks_model (NM m)) medicines).
  lia.
Qed.

(* ===================================================================== *)
(** ** Batches compose *)
(* ===================================================================== *)

Lemma run_process_loop_acc (json_loads : str -> option json) (W : Type)
  (respond : W -> request -> completion * W) (medicines : list medicine) :
  forall (w : W) (acc : list dict),
    run respond (process_loop json_loads medicines acc) w =
    (match fst (run respond (process_loop json_loads medicines []) w) with
     | Ok out => Ok (acc ++ out)
     | Raise e => Raise e
     end,
     snd (run respond (process_loop json_loads medicines []) w)).
Proof.
  induction medicines as [|m ms IH]; intros w acc.
  - cbn [process_loop run fst snd]. rewrite app_nil_r. reflexivity.
  - cbn [process_loop]. rewrite !run_bind.
    set (c := fst (run respond (extract_components json_loads (NM m)) w)).
    set (w' := snd (run respond (extract_components json_loads (NM m)) w)).
    destruct (processed_medicine m c) as [item|e]; [|reflexivity].
    rewrite (IH w' (acc ++ [item])), (IH w' ([] ++ [item])).
    cbn [fst snd app].
    destruct (fst (run respond (process_loop json_loads ms []) w'));
      [|reflexivity].
    rewrite <- app_assoc. reflexivity.
Qed.

Lemma run_process_loop_app (json_loads : str -> option json) (W : Type)
  (respond : W -> request -> completion * W) (xs ys : list medicine) :
  forall (w : W) (acc : list dict),
    run respond (process_loop json_loads (xs ++ ys) acc) w =
    match run respond (process_loop json_loads xs acc) w with
    | (Ok out, w') => run respond (process_loop json_loads ys out) w'
    | (Raise e, w') => (Raise e, w')
    end.
Proof.
  induction xs as [|m ms IH]; intros w acc.
  - reflexivity.
  - cbn [app process_loop]. rewrite !run_bind.
    set (c := fst (run respond (extract_components json_loads (NM m)) w)).
    set (w' := snd (run respond (extract_components json_loads (NM m)) w)).
    destruct (processed_medicine m c) as [item|e]; [|reflexivity].
    apply IH.
Qed.

Lemma asked_process_loop_acc (json_loads : str -> option json) (W : Type)
  (respond : W -> request -> completion * W) (medicines : list medicine) :
  forall (w : W) (acc : list dict),
    asked respond (process_loop json_loads medicines acc) w =
    asked respond (process_loop json_loads medicines []) w.
Proof.
  induction medicines as [|m ms IH]; intros w acc; [reflexivity|].
  cbn [process_loop]. rewrite !asked_bind. f_equal.
  set (c := fst (run respond (extract_components json_loads (NM m)) w)).
  set (w' := snd (run respond (extract_components json_loads (NM m)) w)).
  destruct (processed_medicine m c) as [item|e]; [|reflexivity].
  rewrite (IH w' (acc ++ [item])), (IH w' ([] ++ [item])). reflexivity.
Qed.

Lemma asked_process_loop_app (json_loads : str -> option json) (W : Type)
  (respond : W -> request -> completion * W) (xs ys : list medicine) :
  forall (w : W) (acc : list dict),
    asked respond (process_loop json_loads (xs ++ ys) acc) w =
    asked respond (process_loop json_loads xs acc) w ++
    match run respond (process_loop json_loads xs acc) w with
    | (Ok out, w') => asked respond (process_loop json_loads ys out) w'
    | (Raise _, _) => []
    end.
Proof.
  induction xs as [|m ms IH]; intros w acc.
  - reflexivity.
  - cbn [app process_loop]. rewrite !asked_bind, !run_bind, <- app_assoc.
    f_equal.
    set (c := fst (run respond (extract_components json_loads (NM m)) w)).
    set (w' := snd (run respond (extract_components json_loads (NM m)) w)).
    destruct (processed_medicine m c) as [item|e]; [|reflexivity].
    apply IH.
Qed.

(** X13.  Batches compose: processing the concatenation of two lists is
    processing the first and then, on the service as the first left it, the
    second, and concatenating the two results; when the first raises, the
    second is not started and no request is sent for it. *)
Theorem process_medicine_list_app (json_loads : str -> option json)
  (W : Type) (respond : W -> request -> completion * W) (w : W)
  (xs ys : list medicine) :
  run respond (process_medicine_list json_loads (xs ++ ys)) w =
  match run respond (process_medicine_list json_loads xs) w with
  | (Ok out1, w1) =>
      match run respond (process_medicine_list json_loads ys) w1 with
      | (Ok out2, w2) => (Ok (out1 ++ out2), w2)
      | (Raise e, w2) => (Raise e, w2)
      end
  | (Raise e, w1) => (Raise e, w1)
  end /\
  asked respond (process_medicine_list json_loads (xs ++ ys)) w =
  asked respond (process_medicine_list json_loads xs) w ++
  match run respond (process_medicine_list json_loads xs) w with
  | (Ok _, w1) => asked respond (process_medicine_list json_loads ys) w1
  | (Raise _, _) => []
  end.
Proof.
  unfold process_medicine_list. split.
  - rewrite run_process_loop_app.
    destruct (run respond (process_loop json_loads xs []) w) as [[out1|e] w1];
      [|reflexivity].
    rewrite (run_process_loop_acc json_loads respond ys w1 out1).
    destruct (run respond (process_loop json_loads ys []) w1)
      as [[out2|e] w2]; reflexivity.
  - rewrite asked_process_loop_app.
    destruct (run respond (process_loop json_loads xs []) w) as [[out1|e] w1];
      [|reflexivity].
    apply f_equal.
    apply (asked_process_loop_acc json_loads respond ys w1 out1).
Qed.

(* ===================================================================== *)
(** ** The name is made of the raw string *)
(* ===================================================================== *)

Lemma subseq_refl (s : str) : subseq s s.
Proof.
  induction s; [apply subseq_nil|apply subseq_keep; assumption].
Qed.

Lemma subseq_nil_l (s : str) : subseq [] s.
Proof. induction s; constructor; assumption. Qed.

Lemma subseq_trans (a b c : str) : subseq a b -> subseq b c -> subseq a c.
Proof.
  intros Hab Hbc. revert a Hab.
  induction Hbc as [|x b c Hbc IH|x b c Hbc IH]; intros a Hab.
  - exact Hab.
  - apply subseq_skip. apply IH, Hab.
  - inversion Hab; subst.
    + apply subseq_skip. apply IH. assumption.
    + apply subseq_keep. apply IH. assumption.
Qed.

Lemma subseq_app_r (a b : str) : subseq b (a ++ b).
Proof.
  induction a; cbn [app]; [apply subseq_refl|apply subseq_skip; assumption].
Qed.

Lemma subseq_app_l (a b : str) : subseq a (a ++ b).
Proof.
  induction a; cbn [app]; [apply subseq_nil_l|apply subseq_keep; assumption].
Qed.

Lemma subseq_skipn (n : nat) (s : str) : subseq (skipn n s) s.
Proof.
  rewrite <- (firstn_skipn n s) at 2. apply subseq_app_r.
Qed.

Lemma subseq_dropwhile (p : ascii -> bool) (s : str) :
  subseq (dropwhile p s) s.
Proof.
  rewrite <- (takewhile_dropwhile p s) at 2. apply subseq_app_r.
Qed.

Lemma subseq_rstrip_by (p : ascii -> bool) (s : str) :
  subseq (rstrip_by p s) s.
Proof.
  rewrite (rstrip_by_prefix p s) at 2. apply subseq_app_l.
Qed.

Lemma subseq_strip (s : str) : subseq (strip s) s.
Proof.
  unfold strip, lstrip.
  apply subseq_trans with (b := rstrip_by is_space s);
    [apply subseq_dropwhile|apply subseq_rstrip_by].
Qed.

Lemma subseq_visible (a b : str) :
  subseq a b -> subseq (visible a) (visible b).
Proof.
  unfold visible. induction 1 as [|c a b H IH|c a b H IH]; cbn [filter].
  - apply subseq_nil.
  - destruct (negb (is_space c)); [apply subseq_skip|]; exact IH.
  - destruct (negb (is_space c)); [apply subseq_keep|]; exact IH.
Qed.

Lemma subseq_length (a b : str) : subseq a b -> length a <= length b.
Proof. induction 1; cbn [length]; lia. Qed.

(** A pass that replaces tokens by blanks deletes visible characters and
    adds none. *)
Lemma scan_visible (token : str -> option str) (repl : str) :
  visible repl = [] ->
  (forall s rest, token s = Some rest -> subseq rest s) ->
  forall fuel s,
    subseq (visible (Described.scan fuel token repl s)) (visible s).
Proof.
  intros Hrepl Htok. induction fuel as [|fuel IH]; intros s;
    cbn [Described.scan]; [apply subseq_refl|].
  destruct (token s) as [rest|] eqn:E.
  - unfold visible. rewrite filter_app. fold (visible repl). rewrite Hrepl.
    cbn [app]. apply subseq_trans with (b := visible rest); [apply IH|].
    apply subseq_visible, Htok, E.
  - destruct s as [|c s']; [apply subseq_nil|].
    unfold visible. cbn [filter].
    destruct (negb (is_space c)); [apply subseq_keep|]; apply IH.
Qed.

Lemma occurrence_suffix (old s rest : str) :
  Described.occurrence old s = Some rest -> subseq rest s.
Proof.
  unfold Described.occurrence. destruct (startswith old s); [|discriminate].
  intros [= <-]. apply subseq_skipn.
Qed.

Lemma sterile_token_suffix (s rest : str) :
  Described.sterile_token s = Some rest -> subseq rest s.
Proof.
  unfold Described.sterile_token. destruct (_ && _); [|discriminate].
  intros [= <-].
  apply subseq_trans with (b := skipn 7 (dropwhile is_space s));
    [apply subseq_dropwhile|].
  apply subseq_trans with (b := dropwhile is_space s);
    [apply subseq_skipn|apply subseq_dropwhile].
Qed.

Lemma space_run_suffix (s rest : str) :
  Described.space_run s = Some rest -> subseq rest s.
Proof.
  unfold Described.space_run. destruct (begins is_space s); [|discriminate].
  intros [= <-]. apply subseq_dropwhile.
Qed.

Lemma remove_every_visible (old s : str) :
  subseq (visible (Described.remove_every old s)) (visible s).
Proof.
  apply scan_visible; [reflexivity|]. intros t rest. apply occurrence_suffix.
Qed.

Lemma strip_generic_subseq (s : str) : subseq (Described.strip_generic s) s.
Proof.
  unfold Described.strip_generic. destruct (_ && _); [|apply subseq_refl].
  apply subseq_trans with (b := skipn 7 s);
    [apply subseq_dropwhile|apply subseq_skipn].
Qed.

Lemma name_by_visible (raw strength formulation : str) :
  subseq
    (visible (Described.name_by Described.remove_every raw strength
                formulation))
    (visible raw).
Proof.
  unfold Described.name_by.
  set (n1 := match strength with [] => raw | _ :: _ => _ end).
  set (n2 := match formulation with [] => n1 | _ :: _ => _ end).
  assert (H1 : subseq (visible n1) (visible raw))
    by (unfold n1; destruct strength;
        [apply subseq_refl|apply remove_every_visible]).
  assert (H2 : subseq (visible n2) (visible raw)).
  { unfold n2. destruct formulation; [exact H1|].
    eapply subseq_trans; [apply remove_every_visible|exact H1]. }
  eapply subseq_trans; [|exact H2].
  eapply subseq_trans;
    [apply subseq_visible; unfold rstrip; apply subseq_rstrip_by|].
  eapply subseq_trans; [apply subseq_visible, subseq_strip|].
  unfold Described.collapse_spaces, Described.collapse_sterile.
  eapply subseq_trans;
    [apply scan_visible; [reflexivity|apply space_run_suffix]|].
  eapply subseq_trans;
    [apply scan_visible; [reflexivity|apply sterile_token_suffix]|].
  apply subseq_visible, strip_generic_subseq.
Qed.

(** X14.  The name of the pattern extractor is made of the raw string: its
    characters other than whitespace are characters of the raw string, in
    the order of the raw string (the extractor deletes, and puts blanks for
    whitespace, but adds and reorders nothing), whatever strength and
    formulation are removed; in particular its letters and digits are at
    most as many as the raw string's. *)
Theorem name_made_of_raw (raw strength formulation : str) :
  let name := regex_name raw strength formulation in
  subseq (visible name) (visible raw) /\
  length (visible name) <= length (visible raw).
Proof.
  intros name. unfold name. rewrite regex_name_described.
  pose proof (name_by_visible raw strength formulation) as H.
  split; [exact H|apply subseq_length, H].
Qed.

(* ===================================================================== *)
(** ** The fences of a response *)
(* ===================================================================== *)

Lemma unfenced_fence_app (rest : str) :
  unfenced (fence ++ rest) = firstn (length rest - 3) rest.
Proof.
  unfold unfenced. change (startswith fence (fence ++ rest)) with true.
  cbv iota. unfold slice_from_to_end. rewrite length_app.
  change (length fence) with 7. change (skipn 7 (fence ++ rest)) with rest.
  reflexivity.
Qed.

(** X15.  The fences of a response are removed by position, not by
    content: a response that begins with the opening fence loses its first
    seven and its last three characters, whatever the last three are (so a
    single character after the closing fence, such as a newline, leaves a
    backquote at the end of the text handed to the decoder, and a response
    that is the opening fence alone gives the empty text); a response that
    does not begin with the opening fence, for instance because whitespace
    precedes it, is handed to the decoder as it is. *)
Theorem unfenced_by_position :
  (forall rest : str,
     unfenced (fence ++ rest) = firstn (length rest - 3) rest) /\
  (forall (body : str) (c : ascii),
     unfenced (fence ++ body ++ lit "```" ++ [c]) = body ++ lit "`") /\
  unfenced fence = [] /\
  (forall text : str, startswith fence text = false -> unfenced text = text) /\
  (forall (c : ascii) (text : str),
     is_space c = true -> unfenced (c :: fence ++ text) = c :: fence ++ text).
Proof.
  split; [exact unfenced_fence_app|]. split; [|split; [reflexivity|split]].
  - intros body c. rewrite unfenced_fence_app, !length_app.
    change (length (lit "```")) with 3. change (length [c]) with 1.
    replace (length body + (3 + 1) - 3) with (length body + 1) by lia.
    change (lit "```" ++ [c]) with (lit "`" ++ (lit "``" ++ [c])).
    rewrite app_assoc. rewrite firstn_app.
    rewrite length_app. change (length (lit "`")) with 1.
    replace (length body + 1 - (length body + 1)) with 0 by lia.
    cbn [firstn]. rewrite app_nil_r.
    apply firstn_all2. rewrite length_app. cbn [length lit]. 
    change (length (lit "`")) with 1. lia.
  - intros text H. unfold unfenced. rewrite H. reflexivity.
  - intros c text Hc. unfold unfenced.
    destruct (startswith fence (c :: fence ++ text)) eqn:E; [|reflexivity].
    unfold fence in E at 1. cbn [lit list_ascii_of_string startswith] in E.
    destruct (Ascii.eqb_spec "`" c) as [<-|_]; discriminate.
Qed.

(* ===================================================================== *)
(** ** A patch always has a duration *)
(* ===================================================================== *)

Lemma regex_patch_duration (W : Type)
  (respond : W -> request -> completion * W) (w : W) (s : str) :
  is_patch s = true ->
  exists d,
    dict_get (lit "duration") (fst (run respond (extract_components_regex s) w))
      = Some (JStr d) /\
    is_canonical d = true.
Proof.
  intros Hp. unfold extract_components_regex. rewrite Hp.
  destruct (search patch_duration_pattern s) as [m|].
  - cbn [run fst]. eexists. split; [apply dict_get_set_same|].
    apply clean_duration_canonical.
  - cbn [get_patch_duration_from_llm bind run].
    destruct (respond w (DurationRequest s)) as [c' w'']. cbn [run fst].
    eexists. split; [apply dict_get_set_same|].
    apply duration_of_completion_canonical.
Qed.

(** X16.  For a string that names a patch the result of
    [extract_components] always has a duration, so that the default of
    [components.get('duration', '')] in [process_medicine_list] is never
    used for a patch; and unless the duration is the one that the model
    supplied in its response (the string states none and the response has
    one), it is a string, empty or digits followed by " days" or
    " hours". *)
Theorem patch_always_has_duration (json_loads : str -> option json)
  (W : Type) (respond : W -> request -> completion * W) (w : W) (s : str) :
  is_patch s = true ->
  let components := fst (run respond (extract_components json_loads s) w) in
  (exists v, dict_get (lit "duration") components = Some v /\
             get_duration components = v) /\
  (asks_model s &&
   supplies_duration json_loads (fst (respond w (ExtractRequest s))) = false ->
   exists d, dict_get (lit "duration") components = Some (JStr d) /\
             is_canonical d = true).
Proof.
  intros Hp components.
  assert (Hgen : forall out : dict,
            (exists d, dict_get (lit "duration") out = Some (JStr d) /\
                       is_canonical d = true) ->
            (exists v, dict_get (lit "duration") out = Some v /\
                       get_duration out = v) /\
            (asks_model s &&
             supplies_duration json_loads (fst (respond w (ExtractRequest s)))
               = false ->
             exists d, dict_get (lit "duration") out = Some (JStr d) /\
                       is_canonical d = true)).
  { intros out [d [Hd Hc]]. split.
    - exists (JStr d). split; [exact Hd|]. unfold get_duration.
      rewrite Hd. reflexivity.
    - intros _. exists d. split; assumption. }
  unfold components. clear components. cbn [run extract_components].
  unfold supplies_duration in *.
  destruct (respond w (ExtractRequest s)) as [c w']. cbn [fst] in *.
  destruct c as [|[text|]].
  1: { apply Hgen. apply (@regex_patch_duration _ respond w' s Hp). }
  2: { apply Hgen. apply (@regex_patch_duration _ respond w' s Hp). }
  cbn [reply_object] in *.
  destruct (json_loads (unfenced text)) as [[| | | | | |d]|];
    try (apply Hgen; apply (@regex_patch_duration _ respond w' s Hp)).
  clear Hgen. unfold asks_model. rewrite Hp. cbn [andb].
  set (validated := fill (lit "formulation") formulation_pattern s
                      (fill (lit "strength") strength_pattern s d)).
  assert (Hv : dict_get (lit "duration") validated
               = dict_get (lit "duration") d).
  { unfold validated. rewrite !dict_get_fill_other by reflexivity.
    reflexivity. }
  destruct (search patch_duration_pattern s) as [m|].
  - cbn [run fst]. split.
    + eexists. split; [apply dict_get_set_same|].
      unfold get_duration. rewrite dict_get_set_same. reflexivity.
    + intros _. eexists. split; [apply dict_get_set_same|].
      apply clean_duration_canonical.
  - assert (Hgt : get_truthy (lit "duration") validated
                  = get_truthy (lit "duration") d)
      by (unfold get_truthy; rewrite Hv; reflexivity).
    rewrite !Hgt.
    destruct (get_truthy (lit "duration") d) eqn:Et.
    + cbn [run fst]. split; [|discriminate].
      unfold get_duration. rewrite Hv.
      destruct (dict_get (lit "duration") d) as [v|] eqn:Ed.
      * exists v. split; reflexivity.
      * unfold get_truthy in Et. rewrite Ed in Et. discriminate Et.
    + cbn [get_patch_duration_from_llm bind run].
      destruct (respond w' (DurationRequest s)) as [c' w'']. cbn [run fst].
      split.
      * eexists. split; [apply dict_get_set_same|].
        unfold get_duration. rewrite dict_get_set_same. reflexivity.
      * intros _. eexists. split; [apply dict_get_set_same|].
        apply duration_of_completion_canonical.
Qed.

Lemma patch_always_has_duration_witness :
  get_duration
    (fst (run scripted (extract_components Flat.loads (lit "Fentanyl patch"))
            [Content (Some fenced_reply); Content (Some (lit "3 Days"))]))
  = JStr (lit "3 days").
Proof.
  destruct (@patch_always_has_duration Flat.loads _ scripted
              [Content (Some fenced_reply); Content (Some (lit "3 Days"))]
              (lit "Fentanyl patch") eq_refl) as [[v [Hv Hg]] _].
  rewrite Hg. vm_compute in Hv. injection Hv as <-. reflexivity.
Defined.

(* ===================================================================== *)
(** ** What the removals leave in the name *)
(* ===================================================================== *)








(** A pass that puts a blank for each token, the tokens beginning with
    whitespace. *)
Section PassBlank.

Variable token : str -> option str.

Hypothesis token_space : forall s rest,
  token s = Some rest -> begins is_space s = true.

Hypothesis token_suffix : forall s rest,
  token s = Some rest -> exists pre, s = pre ++ rest.

Local Abbreviation scan f s := (Described.scan f token (lit " ") s).







End PassBlank.












Section ScanFuel.

Variable token : str -> option str.
Variable repl : str.

Hypothesis token_shortens : forall s rest,
  token s = Some rest -> length rest < length s.


End ScanFuel.


Lemma has_space_sterile : has_space (lit "sterile") = false.
Proof. reflexivity. Qed.



















(** At each of the four inputs on which the claim fails, the condition of
    the part that fails does not hold. *)
Lemma conditions_fail_where_name_is_not_free :
  let strength raw := search_group0 strength_pattern raw in
  let formulation raw := search_group0 formulation_pattern raw in
  let left raw := left_after_removals raw (strength raw) (formulation raw) in
  let raw1 := lit "Drug 5 5 mg mg tablets" in
  let raw2 := lit "Morphine 10mg/5ml oral oral solution solution" in
  let raw3 := lit "75mg Generic Aspirin tablets" in
  let raw4 := lit "Water sterile sterile saline 10ml ampoules" in
  settled (strength raw1) (left raw1) = false /\
  settled (formulation raw2) (left raw2) = false /\
  begins is_space (left raw3) = true /\
  Described.has_token sterile_twice (left raw4) = true.
Proof. vm_compute. repeat split. Qed.
